(** * modbus_exporter: the scrape pipeline of [modbus/modbus.go]

    A shallow embedding of the Go package [modbus]: the register decoder
    [parseModbusData], the per-metric scraper [scrapeMetric], the dispatcher
    and scraper loop [scrapeMetrics], the registry adapter [registerMetrics]
    and the orchestrator [Scrape], followed by the properties of the
    natural-language specification checked against them.

    Conventions of the embedding:
    - a Go function that may panic returns an [exec]; a Go result pair
      [(T, error)] is the pair [(T, option error)], [None] being [nil];
    - fixed-width integers are [Z] (or [N]) with the conversions written out;
    - [float64] is [spec_float] at precision 53, maximal exponent 1024;
    - Go maps are references: a label mapping is a location in a store of
      maps, [None] being the nil map. *)

From Stdlib Require Import ZArith NArith List Bool Lia.
From Stdlib Require Import Floats.SpecFloat.
From Stdlib Require Import Init.Byte.
From stdpp Require Import base option list strings pretty gmap fin_maps.

Local Open Scope Z_scope.

(** ** Numbers *)

Abbreviation float64 := spec_float (only parsing).

(** Conversion of an integer to [float64] (exact below 2^53). *)
Definition float64_of_Z (z : Z) : float64 := binary_normalize 53 1024 z 0 false.

Definition float64_ltb (x y : float64) : bool := SFltb x y.
Definition float64_eqb (x y : float64) : bool := SFeqb x y.
Definition float64_add (x y : float64) : float64 := SFadd 53 1024 x y.

(** Go's conversions [uint16(x)], [int16(x)], [uint32(x)] and [uint64(x)]
    of an integer: the low bits. *)
Definition uint16 (z : Z) : Z := z mod 2 ^ 16.
Definition uint32 (z : Z) : Z := z mod 2 ^ 32.
Definition uint64 (z : Z) : Z := z mod 2 ^ 64.

(** Go's conversion [uint64(x)] of a [float64]: the fraction is discarded.
    Where the value is not that of a [uint64] (negative, 2^64 or more,
    infinite, not a number) Go leaves the result to the implementation;
    the results here are those of amd64. *)
Definition uint64_of_float64 (x : float64) : Z :=
  match x with
  | S754_zero _ => 0
  | S754_finite s m e =>
      let t := if 0 <=? e then Z.pos m * 2 ^ e else Z.pos m / 2 ^ (- e) in
      if s then (if t <=? 2 ^ 63 then uint64 (- t) else 2 ^ 63)
      else (if t <? 2 ^ 64 then t else 2 ^ 63)
  | _ => 2 ^ 63
  end.
Definition int16 (z : Z) : Z :=
  let u := z mod 2 ^ 16 in if u <? 2 ^ 15 then u else u - 2 ^ 16.

(** [math.Float32frombits]: the IEEE 754 binary32 value of a 32-bit pattern. *)
Definition Float32frombits (b : Z) : spec_float :=
  let s := Z.testbit b 31 in
  let e := Z.land (Z.shiftr b 23) 255 in
  let m := Z.land b (2 ^ 23 - 1) in
  if e =? 0 then
    if m =? 0 then S754_zero s else S754_finite s (Z.to_pos m) (-149)
  else if e =? 255 then
    if m =? 0 then S754_infinity s else S754_nan
  else S754_finite s (Z.to_pos (m + 2 ^ 23)) (e - 150).

(** [float64(f)] for a [float32] [f]: exact, renormalised to 53 bits. *)
Definition float64_of_float32 (f : spec_float) : float64 :=
  match f with
  | S754_finite s m e =>
      binary_normalize 53 1024 (if s then Z.neg m else Z.pos m) e s
  | _ => f
  end.

Definition byteZ (b : byte) : Z := Z.of_N (Byte.to_N b).

(** ** The [config] package *)

(** Modelled from the spec: the declarations of package [config]
    ([MetricDef], [ModbusDataType], [MetricType], [RegisterAddr], [Module])
    are not in [modbus.go]; the records follow sections 3 and 6 of the
    specification and the uses [modbus.go] makes of them. The data type and
    the metric kind are open in Go (the source has a [default] branch for
    the one, and a [switch] without one for the other), hence the
    constructors [ModbusOther] and [MetricTypeOther]. The address is an
    unsigned number. The bit offset is a pointer to a signed integer: the
    source converts it with [uint16(...)] before shifting by it. *)
Module config.

Inductive ModbusDataType :=
| ModbusFloat16 | ModbusFloat32 | ModbusInt16 | ModbusInt32
| ModbusUInt16 | ModbusBool
| ModbusOther (name : string).

Inductive MetricType :=
| MetricTypeGauge | MetricTypeCounter
| MetricTypeOther (name : string).

#[global] Instance ModbusDataType_eq_dec : EqDecision ModbusDataType.
Proof. solve_decision. Defined.
#[global] Instance MetricType_eq_dec : EqDecision MetricType.
Proof. solve_decision. Defined.

Definition RegisterAddr : Type := N.

(** A reference to a Go [map[string]string]; [None] is the nil map. *)
Definition LabelsRef : Type := option nat.

Module MetricDef.
Record t := mk {
  Name : string;
  Help : string;
  Labels : LabelsRef;
  Address : RegisterAddr;
  DataType : ModbusDataType;
  BitOffset : option Z;
  MetricType : config.MetricType
}.
End MetricDef.

Module Module_.
Record t := mk {
  Name : string;
  Timeout : Z;
  Metrics : list MetricDef.t
}.
End Module_.

End config.
Import config.

(** ** Errors and panics *)

(** The error values the package builds, one constructor per construction
    site; [fmt.Errorf] arguments are kept as fields. *)
Inductive error :=
| InsufficientRegistersError (e : string)
    (* &InsufficientRegistersError{e} *)
| ErrBitPosition
    (* "expected bit position on boolean data type" *)
| ErrUnknownDataType
    (* "unknown modbus data type" *)
| ErrAddressRange (name : string) (address : N)
    (* "metric: '%v', address '%v': metric address should be within ..." *)
| ErrScrapeMetric (name : string) (address : N) (inner : error)
    (* "metric '%v', address '%v': %v" *)
| ErrRegister (name : string) (inner : error)
    (* "failed to register metric %v: %v" *)
| ErrApply (name : string) (kind : MetricType) (value : float64)
    (labels : gmap string string) (inner : error)
    (* "metric '%v', type '%v', value '%v', labels '%v': %v" *)
| ErrModuleNotFound (moduleName : string)
    (* "failed to find '%v' in config" *)
| ErrConnect (target : string) (moduleName : string)
    (* "unable to connect with target %s via module %s" *)
| ErrScrape (moduleName : string) (inner : error)
    (* "failed to scrape metrics for module '%v': %v" *)
| ErrRegisterModule (moduleName : string) (inner : error)
    (* "failed to register metrics for module %v: %v" *)
| RuntimeIndexOutOfRange (index len : nat)
    (* runtime error: index out of range *)
| RuntimeInvalidAddress
    (* runtime error: invalid memory address or nil pointer dereference *)
| RuntimeTypeAssertion
    (* runtime error: interface conversion, from a failed r.(error) *)
| ErrLibrary (msg : string)
    (* an error value made by a library: modbus client, Prometheus *).

(** The [Error] method of [*InsufficientRegistersError]. *)
Definition InsufficientRegistersError_Error (e : string) : string :=
  "insufficient amount of registers provided: " +:+ e.

(** The value carried by a panic: a string ([panic("implement")]) or an
    error (run-time errors, the Prometheus library). *)
Inductive panic_value :=
| PanicString (s : string)
| PanicError (e : error).

(** Outcome of running Go code that may panic. *)
Inductive exec (A : Type) :=
| Done (a : A)
| Panicked (p : panic_value).
Arguments Done {A} a.
Arguments Panicked {A} p.

#[global] Instance exec_ret : MRet exec := λ A a, Done a.
#[global] Instance exec_bind : MBind exec := λ A B f x,
  match x with
  | Done a => f a
  | Panicked p => Panicked p
  end.

(** ** [encoding/binary]: big-endian reads, with their bounds checks *)

Definition BigEndian_Uint16 (b : list byte) : exec Z :=
  match b !! 1%nat, b !! 0%nat with
  | Some b1, Some b0 => Done (Z.lor (byteZ b1) (Z.shiftl (byteZ b0) 8))
  | _, _ => Panicked (PanicError (RuntimeIndexOutOfRange 1 (length b)))
  end.

Definition BigEndian_Uint32 (b : list byte) : exec Z :=
  match b !! 3%nat, b !! 2%nat, b !! 1%nat, b !! 0%nat with
  | Some b3, Some b2, Some b1, Some b0 =>
      Done (Z.lor (Z.lor (Z.lor (byteZ b3) (Z.shiftl (byteZ b2) 8))
                         (Z.shiftl (byteZ b1) 16))
                  (Z.shiftl (byteZ b0) 24))
  | _, _, _, _ => Panicked (PanicError (RuntimeIndexOutOfRange 3 (length b)))
  end.

(** ** The register decoder *)

Definition expected_got (n : string) (rawData : list byte) : string :=
  "expected at least " +:+ n +:+ ", got " +:+ pretty (length rawData).

(** [uint16(1) << s] on 16 bits: zero once the count reaches the width. *)
Definition shl16 (x s : Z) : Z := Z.shiftl x s mod 2 ^ 16.

Definition parseModbusData (d : MetricDef.t) (rawData : list byte)
  : exec (float64 * option error) :=
  match MetricDef.DataType d with
  | ModbusFloat16 =>
      if (length rawData <? 2)%nat then
        Done (float64_of_Z 0,
              Some (InsufficientRegistersError (expected_got "1" rawData)))
      else Panicked (PanicString "implement")
  | ModbusFloat32 =>
      if (length rawData <? 4)%nat then
        Done (float64_of_Z 0,
              Some (InsufficientRegistersError (expected_got "2" rawData)))
      else
        bits ← BigEndian_Uint32 (take 4 rawData);
        Done (float64_of_float32 (Float32frombits bits), None)
  | ModbusInt16 =>
      if (length rawData <? 2)%nat then
        Done (float64_of_Z 0,
              Some (InsufficientRegistersError (expected_got "1" rawData)))
      else
        i ← BigEndian_Uint16 rawData;
        Done (float64_of_Z (int16 i), None)
  | ModbusInt32 =>
      if (length rawData <? 4)%nat then
        Done (float64_of_Z 0,
              Some (InsufficientRegistersError (expected_got "2" rawData)))
      else
        i ← BigEndian_Uint16 rawData;
        Done (float64_of_Z i, None)
  | ModbusUInt16 =>
      if (length rawData <? 2)%nat then
        Done (float64_of_Z 0,
              Some (InsufficientRegistersError (expected_got "1" rawData)))
      else
        i ← BigEndian_Uint32 rawData;
        Done (float64_of_Z i, None)
  | ModbusBool =>
      if (length rawData <? 2)%nat then
        Done (float64_of_Z 0,
              Some (InsufficientRegistersError (expected_got "1" rawData)))
      else
        match MetricDef.BitOffset d with
        | None => Done (float64_of_Z 0, Some ErrBitPosition)
        | Some off =>
            data ← BigEndian_Uint16 rawData;
            if Z.land data (shl16 (uint16 1) (uint16 off)) >? 0
            then Done (float64_of_Z 1, None)
            else Done (float64_of_Z 0, None)
        end
  | ModbusOther _ => Done (float64_of_Z 0, Some ErrUnknownDataType)
  end.

(** ** The Modbus client ([github.com/goburrow/modbus])

    The four read operations of the [modbus.Client] interface. A read is an
    exchange with the device: it takes the state of the connection and
    returns the next one, with the bytes and error of Go's result pair. *)
Module modbus.

(** [type modbusFunc func(address, quantity uint16) ([]byte, error)] *)
Definition modbusFunc (S : Type) : Type :=
  Z → Z → S → (list byte * option error) * S.

Record Client (S : Type) := {
  ReadCoils : modbusFunc S;
  ReadDiscreteInputs : modbusFunc S;
  ReadInputRegisters : modbusFunc S;
  ReadHoldingRegisters : modbusFunc S
}.
Arguments ReadCoils {S} c.
Arguments ReadDiscreteInputs {S} c.
Arguments ReadInputRegisters {S} c.
Arguments ReadHoldingRegisters {S} c.

End modbus.
Import modbus.

(** ** Assembled metrics *)

(** Modelled from the spec: the struct [metric] is declared outside
    [modbus.go]; its fields are those of the composite literal in
    [scrapeMetric], in that order, and of section 3 of the specification. *)
Module metric.
Record t := mk {
  Name : string;
  Help : string;
  Labels : LabelsRef;
  Value : float64;
  MetricType : config.MetricType
}.
(** The zero value [metric{}]. *)
Definition zero : t := mk "" "" None (S754_zero false) (MetricTypeOther "").
End metric.

(** ** The metric scraper *)

Section Scraper.
Context {S : Type}.

Definition scrapeMetric (definition : MetricDef.t) (f : modbusFunc S) (s : S)
  : exec (metric.t * option error) * S :=
  let div := uint16 2 in
  let '((modBytes, err), s) :=
    f (uint16 (Z.of_N (MetricDef.Address definition mod 10000))) div s in
  match err with
  | Some err => (Done (metric.zero, Some err), s)
  | None =>
      match parseModbusData definition modBytes with
      | Panicked p => (Panicked p, s)
      | Done (v, Some err) => (Done (metric.zero, Some err), s)
      | Done (v, None) =>
          (Done (metric.mk (MetricDef.Name definition)
                           (MetricDef.Help definition)
                           (MetricDef.Labels definition)
                           v
                           (MetricDef.MetricType definition), None), s)
      end
  end.

(** The [switch definition.Address / 10000] of [scrapeMetrics]; [None] is
    its [default] branch. *)
Definition selectFunc (c : Client S) (address : RegisterAddr)
  : option (modbusFunc S) :=
  match (address / 10000)%N with
  | 0%N => Some (ReadCoils c)
  | 1%N => Some (ReadDiscreteInputs c)
  | 3%N => Some (ReadInputRegisters c)
  | 4%N => Some (ReadHoldingRegisters c)
  | _ => None
  end.

(** The [for] loop of [scrapeMetrics]; [metrics] is the slice built so
    far. *)
Fixpoint scrapeMetrics_loop (definitions : list MetricDef.t) (c : Client S)
    (metrics : list metric.t) (s : S)
  : exec (list metric.t * option error) * S :=
  match definitions with
  | [] => (Done (metrics, None), s)
  | definition :: definitions =>
      match selectFunc c (MetricDef.Address definition) with
      | None =>
          (Done ([], Some (ErrAddressRange (MetricDef.Name definition)
                                           (MetricDef.Address definition))), s)
      | Some f =>
          match scrapeMetric definition f s with
          | (Panicked p, s) => (Panicked p, s)
          | (Done (m, Some err), s) =>
              (Done ([], Some (ErrScrapeMetric (MetricDef.Name definition)
                                 (MetricDef.Address definition) err)), s)
          | (Done (m, None), s) =>
              scrapeMetrics_loop definitions c (metrics ++ [m]) s
          end
      end
  end.

Definition scrapeMetrics (definitions : list MetricDef.t) (c : Client S)
    (s : S) : exec (list metric.t * option error) * S :=
  if (length definitions =? 0)%nat then (Done ([], None), s)
  else scrapeMetrics_loop definitions c [] s.

End Scraper.

(** ** The metrics library ([github.com/prometheus/client_golang])

    The part of the library [registerMetrics] drives, as the library
    documents it: metric vectors, the validation of the labels given to
    [With], [Set] on a gauge, [Add] on a counter (which "panics among other
    things if the counter value is negative", in the words of
    [registerMetrics]), and the [Registerer] interface, which
    [registerMetrics] takes as a parameter. A vector lives in the heap and
    is shared, by pointer, between the registry and the tables of
    [registerMetrics]. *)
Module prometheus.

(** [unicode/utf8.ValidString], on the bytes of the string. *)
Definition cont (b : N) : bool := ((0x80 <=? b) && (b <=? 0xBF))%N.
Definition within (lo hi b : N) : bool := ((lo <=? b) && (b <=? hi))%N.

Fixpoint utf8_valid (bs : list N) : bool :=
  match bs with
  | [] => true
  | b0 :: r0 =>
      if (b0 <? 0x80)%N then utf8_valid r0
      else
        match r0 with
        | [] => false
        | b1 :: r1 =>
            if within 0xC2 0xDF b0 then cont b1 && utf8_valid r1
            else
              match r1 with
              | [] => false
              | b2 :: r2 =>
                  if within 0xE0 0xEF b0 then
                    (if (b0 =? 0xE0)%N then within 0xA0 0xBF b1
                     else if (b0 =? 0xED)%N then within 0x80 0x9F b1
                     else cont b1)
                    && cont b2 && utf8_valid r2
                  else
                    match r2 with
                    | [] => false
                    | b3 :: r3 =>
                        within 0xF0 0xF4 b0
                        && (if (b0 =? 0xF0)%N then within 0x90 0xBF b1
                            else if (b0 =? 0xF4)%N then within 0x80 0x8F b1
                            else cont b1)
                        && cont b2 && cont b3 && utf8_valid r3
                    end
              end
        end
  end.

Definition ValidString (s : string) : bool :=
  utf8_valid (Ascii.N_of_ascii <$> String.list_ascii_of_string s).

(** One metric of a vector. A gauge keeps its value in [valBits]. A
    counter keeps the sum of its increments in two parts: those that are
    whole numbers in [valInt], a [uint64], the others in [valBits]; it
    reports the sum of the two parts. *)
Record Metric := mkMetric {
  valBits : float64;
  valInt : Z
}.

Definition zeroMetric : Metric := mkMetric (S754_zero false) 0.

(** A metric vector: its descriptor and one metric per label-value tuple. *)
Record Vec := mkVec {
  fqName : string;
  help : string;
  variableLabels : list string;
  metrics : gmap (list string) Metric
}.

Inductive Collector :=
| GaugeVec (v : Vec)
| CounterVec (v : Vec).

(** The [Registerer] interface: [Register] receives the collector (its
    address and what is stored there) and the state of the registry. *)
Record Registerer (R : Type) := {
  Register : nat → Collector → R → option error * R
}.
Arguments Register {R} r.

(** [NewGaugeVec] and [NewCounterVec]: a vector without values. *)
Definition NewVec (name help : string) (labelNames : list string) : Vec :=
  mkVec name help labelNames ∅.

Definition errInconsistentCardinality : error :=
  ErrLibrary "inconsistent label cardinality".
Definition errInvalidUTF8 : error :=
  ErrLibrary "label value is not valid UTF-8".
Definition errMissingLabel : error :=
  ErrLibrary "label name missing in label map".
Definition errCounterDecrease : error :=
  ErrLibrary "counter cannot decrease in value".

Definition validateValuesInLabels (labels : gmap string string)
    (expectedNumberOfValues : nat) : option error :=
  if bool_decide (size labels = expectedNumberOfValues) then
    if forallb (λ kv, ValidString kv.2) (map_to_list labels) then None
    else Some errInvalidUTF8
  else Some errInconsistentCardinality.

(** [GetMetricWith]: the label-value tuple of [labels] in the order of the
    descriptor, and the vector with a zero value created for it when it
    has none yet. *)
Definition GetMetricWith (v : Vec) (labels : gmap string string)
  : error + (list string * Vec) :=
  match validateValuesInLabels labels (length (variableLabels v)) with
  | Some err => inl err
  | None =>
      match mapM (λ name, labels !! name) (variableLabels v) with
      | None => inl errMissingLabel
      | Some key =>
          inr (key,
               match metrics v !! key with
               | Some _ => v
               | None =>
                   mkVec (fqName v) (help v) (variableLabels v)
                         (<[key := zeroMetric]> (metrics v))
               end)
      end
  end.

Definition setMetric (v : Vec) (key : list string) (c : Metric) : Vec :=
  mkVec (fqName v) (help v) (variableLabels v) (<[key := c]> (metrics v)).

Definition getMetric (v : Vec) (key : list string) : Metric :=
  default zeroMetric (metrics v !! key).

(** [Gauge.Set]. *)
Definition Set_ (v : Vec) (key : list string) (x : float64) : Vec :=
  setMetric v key (mkMetric x 0).

(** The update of [Counter.Add]:
    [ival := uint64(v); if float64(ival) == v { valInt += ival } else
    { valBits += v }]; the sum in [valInt] wraps around at 2^64. *)
Definition addMetric (c : Metric) (x : float64) : Metric :=
  let ival := uint64_of_float64 x in
  if float64_eqb (float64_of_Z ival) x
  then mkMetric (valBits c) (uint64 (valInt c + ival))
  else mkMetric (float64_add (valBits c) x) (valInt c).

(** [Counter.Add]: panics, with an error, on a negative value. *)
Definition Add (v : Vec) (key : list string) (x : float64) : error + Vec :=
  if float64_ltb x (S754_zero false) then inl errCounterDecrease
  else inr (setMetric v key (addMetric (getMetric v key) x)).

(** The value a counter reports: [valBits + float64(valInt)]. *)
Definition counterValue (c : Metric) : float64 :=
  float64_add (valBits c) (float64_of_Z (valInt c)).

End prometheus.
Import prometheus.

(** ** The registry adapter *)

(** The Go heap: label maps and metric vectors, addressed by position. *)
Record Heap := mkHeap {
  labelMaps : list (gmap string string);
  gaugeVecs : list Vec;
  counterVecs : list Vec
}.

(** [keys]: the keys of a map (Go leaves their order unspecified). *)
Definition keys (m : gmap string string) : list string := (map_to_list m).*1.

Section Registry.
Context {R : Type} (reg : Registerer R).

(** The state a run of [registerMetrics] works on: the heap, the registry
    behind [reg], and the two local tables. *)
Record LoopState := mkLoop {
  heap : Heap;
  registry : R;
  registeredGauges : gmap string nat;
  registeredCounters : gmap string nat
}.

Definition with_labelMaps (f : list (gmap string string) → list (gmap string string))
    (ls : LoopState) : LoopState :=
  mkLoop (mkHeap (f (labelMaps (heap ls))) (gaugeVecs (heap ls))
                 (counterVecs (heap ls)))
         (registry ls) (registeredGauges ls) (registeredCounters ls).

Definition with_gaugeVecs (f : list Vec → list Vec) (ls : LoopState)
  : LoopState :=
  mkLoop (mkHeap (labelMaps (heap ls)) (f (gaugeVecs (heap ls)))
                 (counterVecs (heap ls)))
         (registry ls) (registeredGauges ls) (registeredCounters ls).

Definition with_counterVecs (f : list Vec → list Vec) (ls : LoopState)
  : LoopState :=
  mkLoop (mkHeap (labelMaps (heap ls)) (gaugeVecs (heap ls))
                 (f (counterVecs (heap ls))))
         (registry ls) (registeredGauges ls) (registeredCounters ls).

Definition with_registry (r : R) (ls : LoopState) : LoopState :=
  mkLoop (heap ls) r (registeredGauges ls) (registeredCounters ls).

Definition with_registeredGauges (t : gmap string nat) (ls : LoopState)
  : LoopState :=
  mkLoop (heap ls) (registry ls) t (registeredCounters ls).

Definition with_registeredCounters (t : gmap string nat) (ls : LoopState)
  : LoopState :=
  mkLoop (heap ls) (registry ls) (registeredGauges ls) t.

(** [if m.Labels == nil { m.Labels = map[string]string{} }]: the map [m]
    refers to afterwards; a nil map is replaced by a new, empty one. *)
Definition ensureLabels (labels : LabelsRef) (ls : LoopState)
  : nat * LoopState :=
  match labels with
  | Some l => (l, ls)
  | None =>
      (length (labelMaps (heap ls)), with_labelMaps (λ h, h ++ [∅]) ls)
  end.

(** [collector.With(m.Labels).Set(m.Value)] at the gauge vector [p]. *)
Definition applyGauge (p : nat) (labels : gmap string string)
    (value : float64) (ls : LoopState) : exec unit * LoopState :=
  match gaugeVecs (heap ls) !! p with
  | None => (Panicked (PanicError RuntimeInvalidAddress), ls)
  | Some v =>
      match GetMetricWith v labels with
      | inl err => (Panicked (PanicError err), ls)
      | inr (key, v) =>
          (Done (), with_gaugeVecs (λ h, <[p := Set_ v key value]> h) ls)
      end
  end.

(** [collector.With(m.Labels).Add(m.Value)] at the counter vector [p]. *)
Definition applyCounter (p : nat) (labels : gmap string string)
    (value : float64) (ls : LoopState) : exec unit * LoopState :=
  match counterVecs (heap ls) !! p with
  | None => (Panicked (PanicError RuntimeInvalidAddress), ls)
  | Some v =>
      match GetMetricWith v labels with
      | inl err => (Panicked (PanicError err), ls)
      | inr (key, v) =>
          let ls := with_counterVecs (λ h, <[p := v]> h) ls in
          match Add v key value with
          | inl err => (Panicked (PanicError err), ls)
          | inr v => (Done (), with_counterVecs (λ h, <[p := v]> h) ls)
          end
      end
  end.

(** The deferred function of the counter branch:
    [if r := recover(); r != nil { err = r.(error) }]. *)
Definition recoverError (r : exec unit) : exec (option error) :=
  match r with
  | Done _ => Done None
  | Panicked (PanicError e) => Done (Some e)
  | Panicked (PanicString _) => Panicked (PanicError RuntimeTypeAssertion)
  end.

(** One iteration of the loop of [registerMetrics] on the copy [m];
    [Done None] lets the loop go on, [Done (Some err)] is [return err]. *)
Definition registerMetric (moduleName : string) (m : metric.t)
    (ls : LoopState) : exec (option error) * LoopState :=
  let '(l, ls) := ensureLabels (metric.Labels m) ls in
  match labelMaps (heap ls) !! l with
  | None => (Panicked (PanicError RuntimeInvalidAddress), ls)
  | Some old =>
      let labels := <["module" := moduleName]> old in
      let ls := with_labelMaps (λ h, <[l := labels]> h) ls in
      match metric.MetricType m with
      | MetricTypeGauge =>
          match registeredGauges ls !! metric.Name m with
          | Some collector =>
              match applyGauge collector labels (metric.Value m) ls with
              | (Done _, ls) => (Done None, ls)
              | (Panicked p, ls) => (Panicked p, ls)
              end
          | None =>
              let collector := length (gaugeVecs (heap ls)) in
              let vec := NewVec (metric.Name m) (metric.Help m) (keys labels) in
              let ls := with_gaugeVecs (λ h, h ++ [vec]) ls in
              let '(err, r) :=
                Register reg collector (GaugeVec vec) (registry ls) in
              let ls := with_registry r ls in
              match err with
              | Some err => (Done (Some (ErrRegister (metric.Name m) err)), ls)
              | None =>
                  let ls :=
                    with_registeredGauges
                      (<[metric.Name m := collector]> (registeredGauges ls)) ls in
                  match applyGauge collector labels (metric.Value m) ls with
                  | (Done _, ls) => (Done None, ls)
                  | (Panicked p, ls) => (Panicked p, ls)
                  end
              end
          end
      | MetricTypeCounter =>
          let finish '(r, ls) :=
            match recoverError r with
            | Panicked p => (Panicked p, ls)
            | Done None => (Done None, ls)
            | Done (Some err) =>
                (Done (Some (ErrApply (metric.Name m) (metric.MetricType m)
                                      (metric.Value m) labels err)), ls)
            end in
          match registeredCounters ls !! metric.Name m with
          | Some collector =>
              finish (applyCounter collector labels (metric.Value m) ls)
          | None =>
              let collector := length (counterVecs (heap ls)) in
              let vec := NewVec (metric.Name m) (metric.Help m) (keys labels) in
              let ls := with_counterVecs (λ h, h ++ [vec]) ls in
              let '(err, r) :=
                Register reg collector (CounterVec vec) (registry ls) in
              let ls := with_registry r ls in
              match err with
              | Some err => (Done (Some (ErrRegister (metric.Name m) err)), ls)
              | None =>
                  let ls :=
                    with_registeredCounters
                      (<[metric.Name m := collector]> (registeredCounters ls)) ls in
                  finish (applyCounter collector labels (metric.Value m) ls)
              end
          end
      | MetricTypeOther _ => (Done None, ls)
      end
  end.

Fixpoint registerMetrics_loop (moduleName : string) (metrics : list metric.t)
    (ls : LoopState) : exec (option error) * LoopState :=
  match metrics with
  | [] => (Done None, ls)
  | m :: metrics =>
      match registerMetric moduleName m ls with
      | (Done None, ls) => registerMetrics_loop moduleName metrics ls
      | (r, ls) => (r, ls)
      end
  end.

(** The loop starts with both tables empty. *)
Definition registerMetrics_init (r : R) (h : Heap) : LoopState :=
  mkLoop h r ∅ ∅.

Definition registerMetrics (moduleName : string) (metrics : list metric.t)
    (r : R) (h : Heap) : exec (option error) * (R * Heap) :=
  let '(res, ls) :=
    registerMetrics_loop moduleName metrics (registerMetrics_init r h) in
  (res, (registry ls, heap ls)).

End Registry.

(** ** The scrape orchestrator *)

(** Modelled from the spec: the configuration collaborator of package
    [config], [GetModule(name) -> Module | nil] over the modules of the
    configuration (section 6 of the specification). *)
Record Config := mkConfig { Modules : list Module_.t }.

Definition GetModule (c : Config) (name : string) : option Module_.t :=
  find (λ m, bool_decide (Module_.Name m = name)) (Modules c).

Record Exporter := mkExporter { exporter_config : Config }.

Definition NewExporter (config : Config) : Exporter := mkExporter config.
Definition GetConfig (e : Exporter) : Config := exporter_config e.

(** The TCP handler of the Modbus library, as far as [Scrape] sets it up;
    durations are in nanoseconds, on 64 bits. *)
Record TCPClientHandler := mkHandler {
  handler_Address : string;
  handler_Timeout : Z;
  handler_SlaveId : byte
}.

Definition int64 (z : Z) : Z := (z + 2 ^ 63) mod 2 ^ 64 - 2 ^ 63.
Definition Millisecond : Z := 1000000.
Definition tcpTimeout : Z := 10 * 1000 * Millisecond.

Definition NewTCPClientHandler (address : string) : TCPClientHandler :=
  mkHandler address tcpTimeout x00.

Section Orchestrator.
Context {S R : Type}.
(** [prometheus.NewRegistry()]: a registry and its first state. *)
Variable reg : Registerer R.
Variable NewRegistry : R.
(** [handler.Connect()] followed by [modbus.NewClient(handler)]: an error,
    or the state of the new connection. *)
Variable Connect : TCPClientHandler → error + S.
Variable NewClient : Client S.

Definition Scrape (e : Exporter) (targetAddress : string) (subTarget : byte)
    (moduleName : string) (h : Heap)
  : exec (option R * option error) * Heap :=
  let reg0 := NewRegistry in
  match GetModule (exporter_config e) moduleName with
  | None => (Done (None, Some (ErrModuleNotFound moduleName)), h)
  | Some module =>
      let handler := NewTCPClientHandler targetAddress in
      let handler :=
        if Module_.Timeout module =? 0 then handler
        else mkHandler (handler_Address handler)
                       (int64 (Module_.Timeout module * Millisecond))
                       (handler_SlaveId handler) in
      let handler :=
        mkHandler (handler_Address handler) (handler_Timeout handler)
                  subTarget in
      match Connect handler with
      | inl _ =>
          (Done (None, Some (ErrConnect targetAddress (Module_.Name module))), h)
      | inr s =>
          let c := NewClient in
          match scrapeMetrics (Module_.Metrics module) c s with
          | (Panicked p, _) => (Panicked p, h)
          | (Done (_, Some err), _) =>
              (Done (None, Some (ErrScrape moduleName err)), h)
          | (Done (metrics, None), _) =>
              match registerMetrics reg moduleName metrics reg0 h with
              | (Panicked p, (_, h)) => (Panicked p, h)
              | (Done (Some err), (_, h)) =>
                  (Done (None, Some (ErrRegisterModule moduleName err)), h)
              | (Done None, (r, h)) => (Done (Some r, None), h)
              end
          end
      end
  end.

End Orchestrator.

(** ** Collaborators for running the pipeline

    A client that answers every read with the same bytes and records the
    calls it receives, and a registry that refuses a second collector of a
    name it already holds, as the Prometheus registry does. *)
Module fake.

Inductive ReadFunction :=
| FReadCoils | FReadDiscreteInputs | FReadInputRegisters
| FReadHoldingRegisters.

Record Call := mkCall {
  call_function : ReadFunction;
  call_address : Z;
  call_quantity : Z
}.

(** A client wrapped so that each read is appended to a log. *)
Definition recording {S} (c : Client S) : Client (S * list Call) :=
  let wrap (fn : ReadFunction) (f : modbusFunc S) : modbusFunc (S * list Call) :=
    λ address quantity '(s, log),
      let '(r, s) := f address quantity s in
      (r, (s, log ++ [mkCall fn address quantity])) in
  {| ReadCoils := wrap FReadCoils (ReadCoils c);
     ReadDiscreteInputs := wrap FReadDiscreteInputs (ReadDiscreteInputs c);
     ReadInputRegisters := wrap FReadInputRegisters (ReadInputRegisters c);
     ReadHoldingRegisters :=
       wrap FReadHoldingRegisters (ReadHoldingRegisters c) |}.

(** Every read returns [reply]. *)
Definition fixed (reply : list byte) : Client unit :=
  let f : modbusFunc unit := λ _ _ s, ((reply, None), s) in
  {| ReadCoils := f; ReadDiscreteInputs := f;
     ReadInputRegisters := f; ReadHoldingRegisters := f |}.

Definition collectorName (c : Collector) : string :=
  match c with GaugeVec v | CounterVec v => fqName v end.

(** The registry state is the list of registered names and addresses. *)
Definition registry : Registerer (list (string * nat)) :=
  {| Register := λ p c r,
       if bool_decide (collectorName c ∈ r.*1)
       then (Some (ErrLibrary "duplicate metrics collector registration attempted"), r)
       else (None, r ++ [(collectorName c, p)]) |}.

Definition emptyHeap : Heap := mkHeap [] [] [].

End fake.

(** ** Notions used to state the properties *)

(** The big-endian unsigned 16-bit word made of two bytes. *)
Definition be16 (b0 b1 : byte) : Z := byteZ b0 * 2 ^ 8 + byteZ b1.

(** The big-endian unsigned 32-bit word made of four bytes. *)
Definition be32 (b0 b1 b2 b3 : byte) : Z :=
  byteZ b0 * 2 ^ 24 + byteZ b1 * 2 ^ 16 + byteZ b2 * 2 ^ 8 + byteZ b3.

(** The signed reading of a 32-bit pattern. *)
Definition int32 (z : Z) : Z :=
  let u := z mod 2 ^ 32 in if u <? 2 ^ 31 then u else u - 2 ^ 32.

(** The minimum byte length the specification states for each supported
    data type. *)
Definition minBytes (t : ModbusDataType) : option nat :=
  match t with
  | ModbusFloat16 => Some 2%nat
  | ModbusFloat32 => Some 4%nat
  | ModbusInt16 => Some 2%nat
  | ModbusInt32 => Some 4%nat
  | ModbusUInt16 => Some 2%nat
  | ModbusBool => Some 2%nat
  | ModbusOther _ => None
  end.

(** The same length counted in registers, as the error message reports it. *)
Definition minRegisters (t : ModbusDataType) : string :=
  match t with
  | ModbusFloat32 | ModbusInt32 => "2"
  | _ => "1"
  end.

(** A definition that differs from [d] by its address only. *)
Definition atAddress (d : MetricDef.t) (a : RegisterAddr) : MetricDef.t :=
  MetricDef.mk (MetricDef.Name d) (MetricDef.Help d) (MetricDef.Labels d) a
               (MetricDef.DataType d) (MetricDef.BitOffset d)
               (MetricDef.MetricType d).

(** A gauge definition of the given data type and bit offset, and a
    configuration of one module, for the examples. *)
Definition exampleDef (t : ModbusDataType) (off : option Z) : MetricDef.t :=
  MetricDef.mk "example" "help" None 40001%N t off MetricTypeGauge.

(** Specification wording of the boolean decode: the bit of the word at the
    given offset, 0 being the least significant. *)
Definition spec_bool_value (off : Z) (b0 b1 : byte) : float64 :=
  float64_of_Z (if Z.testbit (be16 b0 b1) off then 1 else 0).

(** Specification wording of the Int32 and UInt16 decodes. *)
Definition spec_int32_value (b0 b1 b2 b3 : byte) : float64 :=
  float64_of_Z (int32 (be32 b0 b1 b2 b3)).
Definition spec_uint16_value (b0 b1 : byte) : float64 :=
  float64_of_Z (be16 b0 b1).

(** [m] is the metric assembled from the definition [d]: name, help, label
    mapping and kind are those of [d], and the value is a decode by [d]. *)
Definition assembled (d : MetricDef.t) (m : metric.t) : Prop :=
  metric.Name m = MetricDef.Name d
  ∧ metric.Help m = MetricDef.Help d
  ∧ metric.Labels m = MetricDef.Labels d
  ∧ metric.MetricType m = MetricDef.MetricType d
  ∧ ∃ rawData, parseModbusData d rawData = Done (metric.Value m, None).

(** Specification wording of the scraper contract: one assembled metric
    per definition, in order, or an error with an empty list. *)
Definition scrape_all_or_error {S} (definitions : list MetricDef.t)
    (c : Client S) (s : S) : Prop :=
  (∃ ms s', scrapeMetrics definitions c s = (Done (ms, None), s')
            ∧ Forall2 assembled definitions ms)
  ∨ (∃ e s', scrapeMetrics definitions c s = (Done ([], Some e), s')).

(** The definitions before [d] were all scraped, leaving the connection in
    state [s0]: [d] is where the scrape of [definitions] goes on. *)
Definition scraped_up_to {S} (c : Client S) (s : S)
    (definitions pre : list MetricDef.t) (d : MetricDef.t)
    (post : list MetricDef.t) (s0 : S) : Prop :=
  definitions = pre ++ d :: post
  ∧ ∃ ms, scrapeMetrics pre c s = (Done (ms, None), s0)
          ∧ Forall2 assembled pre ms.

(** The label mapping a metric refers to, as the adapter finds it: the nil
    map reads as the empty map. *)
Definition labelsOf (ref : LabelsRef) (h : Heap) : option (gmap string string) :=
  match ref with
  | None => Some ∅
  | Some l => labelMaps h !! l
  end.

(** The table, and the vectors of the heap, for one kind of collector. *)
Definition kindTable {R} (k : MetricType) (ls : @LoopState R) : gmap string nat :=
  match k with
  | MetricTypeGauge => registeredGauges ls
  | MetricTypeCounter => registeredCounters ls
  | MetricTypeOther _ => ∅
  end.

Definition kindVecs (k : MetricType) (h : Heap) : list Vec :=
  match k with
  | MetricTypeGauge => gaugeVecs h
  | MetricTypeCounter => counterVecs h
  | MetricTypeOther _ => []
  end.

Definition kindNames (k : MetricType) (h : Heap) : list string :=
  fqName <$> kindVecs k h.

Definition collectorOf (k : MetricType) (v : Vec) : Collector :=
  match k with
  | MetricTypeCounter => CounterVec v
  | _ => GaugeVec v
  end.

(** What a metric of a vector holds after a value [x] of kind [k] was
    applied to it, [c] being what it held before: a gauge is set to [x], a
    counter has [x] added by the library's [Add]. *)
Definition appliedMetric (k : MetricType) (c : Metric) (x : float64) : Metric :=
  match k with
  | MetricTypeCounter => addMetric c x
  | _ => mkMetric x 0
  end.

(** The label values of [labels] in the order of the label names of the
    vector [v]: the tuple at which [With(labels)] finds the metric. *)
Definition labelValues (labels : gmap string string) (v : Vec)
  : option (list string) :=
  mapM (λ name, labels !! name) (variableLabels v).

Definition collectorKind (k : MetricType) : Prop :=
  k = MetricTypeGauge ∨ k = MetricTypeCounter.

(** The registry takes the counter vector that [m] needs, when the table
    of [ls] has none of that name yet. *)
Definition counterAccepted {R} (reg : Registerer R) (m : metric.t)
    (labels : gmap string string) (ls : @LoopState R) : Prop :=
  registeredCounters ls !! metric.Name m = None →
  (Register reg (length (counterVecs (heap ls)))
     (CounterVec (NewVec (metric.Name m) (metric.Help m) (keys labels)))
     (registry ls)).1 = None.

(** A configuration of one module, "plant", with one gauge read as a signed
    16-bit word from holding register 1, whose label mapping is the map at
    location 0 of [exampleHeap]. *)
Definition exampleConfig : Config :=
  mkConfig [Module_.mk "plant" 0
              [MetricDef.mk "voltage" "line voltage" (Some 0%nat) 40001%N
                            ModbusInt16 None MetricTypeGauge]].

Definition exampleHeap : Heap := mkHeap [{["unit" := "V"]}] [] [].

Definition exampleScrape : exec (option (list (string * nat)) * option error) * Heap :=
  Scrape fake.registry [] (λ _, inr ()) (fake.fixed [x00; xe6; x00; x00])
         (NewExporter exampleConfig) "10.0.0.7:502" x01 "plant" exampleHeap.

(** What applying a value at the vector [p] of kind [k] may change: no
    table, not the registry, no label map, no name of a vector, no vector
    but [p]; and when it succeeds, the vector at [p] is as before but for
    the metric at the label values of [labels], which holds the applied
    value. *)
Definition apply_effect {R} (k : MetricType) (p : nat)
    (labels : gmap string string) (x : float64)
    (ls : @LoopState R) (res : exec unit) (ls1 : @LoopState R) : Prop :=
  registry ls1 = registry ls
  ∧ registeredGauges ls1 = registeredGauges ls
  ∧ registeredCounters ls1 = registeredCounters ls
  ∧ labelMaps (heap ls1) = labelMaps (heap ls)
  ∧ (∀ k', kindNames k' (heap ls1) = kindNames k' (heap ls))
  ∧ (∀ k' q, k' ≠ k ∨ q ≠ p →
       kindVecs k' (heap ls1) !! q = kindVecs k' (heap ls) !! q)
  ∧ (res = Done () →
     ∃ v0 key,
       kindVecs k (heap ls) !! p = Some v0
       ∧ labelValues labels v0 = Some key
       ∧ kindVecs k (heap ls1) !! p
         = Some (setMetric v0 key (appliedMetric k (getMetric v0 key) x))).

Definition exampleGauge : metric.t :=
  metric.mk "voltage" "line voltage" None (float64_of_Z 230) MetricTypeGauge.

Definition exampleCounter (value : Z) : metric.t :=
  metric.mk "starts" "number of starts" None (float64_of_Z value)
            MetricTypeCounter.

(** The registry, the tables and the vectors of a loop state: everything
    but the label maps. *)
Definition collectors {R} (ls : @LoopState R)
  : R * gmap string nat * gmap string nat * list Vec * list Vec :=
  (registry ls, registeredGauges ls, registeredCounters ls,
   gaugeVecs (heap ls), counterVecs (heap ls)).

(** One iteration of the loop of [registerMetrics], case by case: the
    label map is missing; the kind is neither gauge nor counter; the table
    has a vector of that name; the registry rejects the new vector; the new
    vector is registered, entered in the table and applied to. *)
Inductive iteration {R} (reg : Registerer R) (moduleName : string)
    (m : metric.t) (ls : @LoopState R)
  : exec (option error) → @LoopState R → Prop :=
| iter_no_labels p :
    labelsOf (metric.Labels m) (heap ls) = None →
    iteration reg moduleName m ls (Panicked p) ls
| iter_other old s ls1 :
    labelsOf (metric.Labels m) (heap ls) = Some old →
    metric.MetricType m = MetricTypeOther s →
    collectors ls1 = collectors ls →
    iteration reg moduleName m ls (Done None) ls1
| iter_existing old k p ls0 r res ls1 :
    labelsOf (metric.Labels m) (heap ls) = Some old →
    collectorKind k → metric.MetricType m = k →
    kindTable k ls !! metric.Name m = Some p →
    collectors ls0 = collectors ls →
    apply_effect k p (<["module" := moduleName]> old) (metric.Value m)
                 ls0 r ls1 →
    (res = Done None ↔ r = Done ()) →
    iteration reg moduleName m ls res ls1
| iter_rejected old k err r' ls1 :
    labelsOf (metric.Labels m) (heap ls) = Some old →
    collectorKind k → metric.MetricType m = k →
    kindTable k ls !! metric.Name m = None →
    let vec := NewVec (metric.Name m) (metric.Help m)
                      (keys (<["module" := moduleName]> old)) in
    Register reg (length (kindVecs k (heap ls))) (collectorOf k vec) (registry ls)
    = (Some err, r') →
    registry ls1 = r' →
    kindVecs k (heap ls1) = kindVecs k (heap ls) ++ [vec] →
    (∀ k', k' ≠ k → kindVecs k' (heap ls1) = kindVecs k' (heap ls)) →
    (∀ k', kindTable k' ls1 = kindTable k' ls) →
    iteration reg moduleName m ls
      (Done (Some (ErrRegister (metric.Name m) err))) ls1
| iter_created old k r' ls0 r res ls1 :
    labelsOf (metric.Labels m) (heap ls) = Some old →
    collectorKind k → metric.MetricType m = k →
    kindTable k ls !! metric.Name m = None →
    let vec := NewVec (metric.Name m) (metric.Help m)
                      (keys (<["module" := moduleName]> old)) in
    Register reg (length (kindVecs k (heap ls))) (collectorOf k vec) (registry ls)
    = (None, r') →
    registry ls0 = r' →
    kindVecs k (heap ls0) = kindVecs k (heap ls) ++ [vec] →
    (∀ k', k' ≠ k → kindVecs k' (heap ls0) = kindVecs k' (heap ls)) →
    kindTable k ls0
    = <[metric.Name m := length (kindVecs k (heap ls))]> (kindTable k ls) →
    (∀ k', k' ≠ k → kindTable k' ls0 = kindTable k' ls) →
    apply_effect k (length (kindVecs k (heap ls)))
                 (<["module" := moduleName]> old) (metric.Value m) ls0 r ls1 →
    (res = Done None ↔ r = Done ()) →
    iteration reg moduleName m ls res ls1.

(** The tables of the loop after the metrics [processed]: for each kind, a
    name is in the table exactly when a metric of that name and kind was
    processed, and the table sends it to the one vector of that name
    created since the loop began, on the heap [h]. *)
Definition tables_ok {R} (h : Heap) (processed : list metric.t)
    (ls : @LoopState R) : Prop :=
  ∀ k, collectorKind k →
    (length (kindNames k h) ≤ length (kindNames k (heap ls)))%nat
    ∧ (∀ n p, kindTable k ls !! n = Some p
              ↔ (length (kindNames k h) ≤ p)%nat
                ∧ kindNames k (heap ls) !! p = Some n)
    ∧ (∀ n, is_Some (kindTable k ls !! n)
            ↔ ∃ m1, m1 ∈ processed ∧ metric.Name m1 = n
                    ∧ metric.MetricType m1 = k).

(** No two vectors of one kind created between the heaps [h] and [h']
    bear the same name. *)
Definition created_once (h h' : Heap) : Prop :=
  ∀ k, NoDup (drop (length (kindNames k h)) (kindNames k h')).

(** The iteration on [m] creates the vector of its name and kind, at the
    end of the heap, and offers it to the registry; when the iteration
    succeeds the table sends the name to that vector, which holds the
    applied value at the label values of [labels], and nothing else. *)
Definition creates_in_table {R} (reg : Registerer R) (k : MetricType)
    (m : metric.t) (labels : gmap string string) (ls : @LoopState R)
    (res : exec (option error)) (ls1 : @LoopState R) : Prop :=
  let p := length (kindVecs k (heap ls)) in
  let vec := NewVec (metric.Name m) (metric.Help m) (keys labels) in
  kindTable k ls !! metric.Name m = None
  ∧ kindNames k (heap ls1) = kindNames k (heap ls) ++ [metric.Name m]
  ∧ (∀ k' q, k' ≠ k ∨ q ≠ p →
       kindVecs k' (heap ls1) !! q = kindVecs k' (heap ls) !! q)
  ∧ registry ls1 = (Register reg p (collectorOf k vec) (registry ls)).2
  ∧ (∀ err, (Register reg p (collectorOf k vec) (registry ls)).1 = Some err →
            res = Done (Some (ErrRegister (metric.Name m) err)))
  ∧ (res = Done None →
     kindTable k ls1 !! metric.Name m = Some p
     ∧ (Register reg p (collectorOf k vec) (registry ls)).1 = None
     ∧ ∃ key, labelValues labels vec = Some key
              ∧ kindVecs k (heap ls1) !! p
                = Some (setMetric vec key
                          (appliedMetric k zeroMetric (metric.Value m)))).

(** The iteration on [m] uses the vector the table has for its name and
    kind, created earlier in this run: it creates no vector, registers
    nothing, leaves the tables and every other vector as they are, and when
    it succeeds that vector is as before but for the metric at the label
    values of the labels of [m], module label included, which holds the
    applied value. *)
Definition reuses_from_table {R} (h : Heap) (k : MetricType) (m : metric.t)
    (moduleName : string) (ls : @LoopState R) (res : exec (option error))
    (ls1 : @LoopState R) : Prop :=
  ∃ p v0,
    kindTable k ls !! metric.Name m = Some p
    ∧ (length (kindVecs k h) ≤ p)%nat
    ∧ kindVecs k (heap ls) !! p = Some v0
    ∧ fqName v0 = metric.Name m
    ∧ (∀ k', kindNames k' (heap ls1) = kindNames k' (heap ls))
    ∧ registry ls1 = registry ls
    ∧ (∀ k', kindTable k' ls1 = kindTable k' ls)
    ∧ (∀ k' q, k' ≠ k ∨ q ≠ p →
         kindVecs k' (heap ls1) !! q = kindVecs k' (heap ls) !! q)
    ∧ (res = Done None →
       ∃ old key,
         labelsOf (metric.Labels m) (heap ls) = Some old
         ∧ labelValues (<["module" := moduleName]> old) v0 = Some key
         ∧ kindVecs k (heap ls1) !! p
           = Some (setMetric v0 key
                     (appliedMetric k (getMetric v0 key) (metric.Value m)))).

(** The run of [registerMetrics] on the metrics up to [m] against the run
    on the metrics before [m], which left the registry [r0] and the heap
    [h0], [h] being the heap the runs began on: no vector of the kind and
    name of [m] was created before; the run up to [m] creates that vector
    at the end of the heap, changes no other vector and offers the new one
    to the registry; it returns the error of a registry that refuses; and
    when it succeeds the registry took the vector, which holds the applied
    value at the label values of [labels], and nothing else. *)
Definition creates_collector {R} (reg : Registerer R) (h : Heap)
    (k : MetricType) (m : metric.t) (labels : gmap string string)
    (r0 : R) (h0 : Heap) (run : exec (option error) * (R * Heap)) : Prop :=
  let p := length (kindVecs k h0) in
  let vec := NewVec (metric.Name m) (metric.Help m) (keys labels) in
  (∀ q, (length (kindVecs k h) ≤ q)%nat →
        kindNames k h0 !! q ≠ Some (metric.Name m))
  ∧ kindNames k run.2.2 = kindNames k h0 ++ [metric.Name m]
  ∧ (∀ k' q, k' ≠ k ∨ q ≠ p → kindVecs k' run.2.2 !! q = kindVecs k' h0 !! q)
  ∧ run.2.1 = (Register reg p (collectorOf k vec) r0).2
  ∧ (∀ err, (Register reg p (collectorOf k vec) r0).1 = Some err →
            run.1 = Done (Some (ErrRegister (metric.Name m) err)))
  ∧ (run.1 = Done None →
     (Register reg p (collectorOf k vec) r0).1 = None
     ∧ ∃ key, labelValues labels vec = Some key
              ∧ kindVecs k run.2.2 !! p
                = Some (setMetric vec key
                          (appliedMetric k zeroMetric (metric.Value m)))).

(** The run of [registerMetrics] on the metrics up to [m] against the run
    on the metrics before [m], which left the registry [r0] and the heap
    [h0], [h] being the heap the runs began on: the heap [h0] has exactly
    one vector of the kind and name of [m] created since [h], at [p]; the
    run up to [m] creates no vector, registers nothing and leaves every
    other vector as it is; and when it succeeds the vector at [p] is as
    before but for the metric at the label values of the labels of [m],
    module label included, which holds the applied value. *)
Definition reuses_collector {R} (h : Heap) (k : MetricType) (m : metric.t)
    (moduleName : string) (r0 : R) (h0 : Heap)
    (run : exec (option error) * (R * Heap)) : Prop :=
  ∃ p v0,
    (length (kindVecs k h) ≤ p)%nat
    ∧ kindVecs k h0 !! p = Some v0
    ∧ fqName v0 = metric.Name m
    ∧ (∀ q, (length (kindVecs k h) ≤ q)%nat →
            kindNames k h0 !! q = Some (metric.Name m) → q = p)
    ∧ (∀ k', kindNames k' run.2.2 = kindNames k' h0)
    ∧ run.2.1 = r0
    ∧ (∀ k' q, k' ≠ k ∨ q ≠ p → kindVecs k' run.2.2 !! q = kindVecs k' h0 !! q)
    ∧ (run.1 = Done None →
       ∃ old key,
         labelsOf (metric.Labels m) h0 = Some old
         ∧ labelValues (<["module" := moduleName]> old) v0 = Some key
         ∧ kindVecs k run.2.2 !! p
           = Some (setMetric v0 key
                     (appliedMetric k (getMetric v0 key) (metric.Value m)))).

(** The vectors of kind [k] created between the heaps [h] and [h'] are
    those of the names the metrics of kind [k] bear. *)
Definition created_for (h h' : Heap) (metrics : list metric.t)
    (k : MetricType) : Prop :=
  ∀ n, n ∈ drop (length (kindNames k h)) (kindNames k h')
       ↔ ∃ m1, m1 ∈ metrics ∧ metric.Name m1 = n ∧ metric.MetricType m1 = k.

(** ** Notions used to state further properties *)

(** The integer a [float64] stands for, when it stands for one. *)
Definition Z_of_float64 (x : float64) : option Z :=
  match x with
  | S754_zero _ => Some 0
  | S754_finite s m e =>
      let v :=
        if 0 <=? e then Some (Z.pos m * 2 ^ e)
        else if Z.pos m mod 2 ^ (- e) =? 0 then Some (Z.pos m / 2 ^ (- e))
        else None in
      (λ z, if s then - z else z) <$> v
  | _ => None
  end.

(** [test] holds on the [2 ^ bits] integers from [base] on. *)
Fixpoint check_range (test : Z → bool) (bits : nat) (base : Z) : bool :=
  match bits with
  | O => test base
  | S bits =>
      check_range test bits base
      && check_range test bits (base + 2 ^ Z.of_nat bits)
  end.

(** The read a definition asks of the client: the function its address
    selects, the address modulo 10000, two registers. *)
Definition expectedCall (d : MetricDef.t) : option fake.Call :=
  let a := MetricDef.Address d in
  match (a / 10000)%N with
  | 0%N => Some (fake.mkCall fake.FReadCoils (Z.of_N (a mod 10000)) 2)
  | 1%N => Some (fake.mkCall fake.FReadDiscreteInputs (Z.of_N (a mod 10000)) 2)
  | 3%N => Some (fake.mkCall fake.FReadInputRegisters (Z.of_N (a mod 10000)) 2)
  | 4%N => Some (fake.mkCall fake.FReadHoldingRegisters (Z.of_N (a mod 10000)) 2)
  | _ => None
  end.

(** A label map that is [old], or [old] with the module label set. *)
Definition module_labelled (moduleName : string) (old lm : gmap string string)
  : Prop :=
  lm = old ∨ lm = <["module" := moduleName]> old.

(** ** Tactics for the adapter proofs *)

(** Reduce the projections and updates of loop states. *)
Ltac loop_state_norm :=
  cbn [kindVecs kindTable with_labelMaps with_gaugeVecs with_counterVecs
       with_registry with_registeredGauges with_registeredCounters registry
       registeredGauges registeredCounters heap gaugeVecs counterVecs
       labelMaps fst snd].

(** The outcome of an iteration after its vector was applied to: the state
    is the one the application left, and the loop goes on exactly when the
    application succeeded. *)
Ltac settle_outcome r ls1 :=
  match goal with
  | |- iteration _ _ _ _ (?o).1 (?o).2 =>
      let Hout := fresh "Hout" in
      assert (o.2 = ls1) as -> by (by destruct r as [[]|[?|?]]);
      assert (o.1 = Done None ↔ r = Done ()) as Hout
        by (destruct r as [[]|[?|?]]; cbn [recoverError fst]; split; done)
  end.

(** * Properties of the register decoder *)

Lemma byteZ_range (b : byte) : 0 ≤ byteZ b < 256.
Proof. unfold byteZ. pose proof (Byte.to_N_bounded b). lia. Qed.

Lemma testbit_above (a n i : Z) :
  0 ≤ a < 2 ^ n → 0 ≤ n ≤ i → Z.testbit a i = false.
Proof.
  intros Ha Hi. apply Z.testbit_false; [lia|].
  rewrite Z.div_small; [done|]. split; [lia|].
  apply Z.lt_le_trans with (2 ^ n); [lia|]. apply Z.pow_le_mono_r; lia.
Qed.

Lemma lor_shiftl_add (hi lo n : Z) :
  0 ≤ n → 0 ≤ lo < 2 ^ n → Z.lor lo (Z.shiftl hi n) = hi * 2 ^ n + lo.
Proof.
  intros Hn Hlo. rewrite Z.shiftl_mul_pow2 by done.
  pose proof (Z.add_lor_land lo (hi * 2 ^ n)) as Hadd.
  assert (Z.land lo (hi * 2 ^ n) = 0) as Hland; [|lia].
  apply Z.bits_inj'. intros i Hi. rewrite Z.land_spec, Z.bits_0.
  destruct (decide (i < n)).
  - rewrite Z.mul_pow2_bits_low by lia. apply andb_false_r.
  - rewrite (testbit_above lo n i) by lia. done.
Qed.

Lemma Uint16_cons (b0 b1 : byte) (rest : list byte) :
  BigEndian_Uint16 (b0 :: b1 :: rest) = Done (be16 b0 b1).
Proof.
  unfold BigEndian_Uint16, be16; simpl. f_equal.
  apply lor_shiftl_add; [lia|]. pose proof (byteZ_range b1). lia.
Qed.

Lemma be16_range (b0 b1 : byte) : 0 ≤ be16 b0 b1 < 2 ^ 16.
Proof.
  unfold be16. pose proof (byteZ_range b0). pose proof (byteZ_range b1). lia.
Qed.

Lemma Uint32_long (b : list byte) :
  (4 ≤ length b)%nat → ∃ z, BigEndian_Uint32 b = Done z.
Proof.
  destruct b as [|b0 [|b1 [|b2 [|b3 rest]]]]; simpl; intros; try lia.
  eexists; reflexivity.
Qed.

(** The test [data & (1 << k) > 0] on 16 bits reads bit [k] of [data]. *)
Lemma land_shl16_testbit (data k : Z) :
  0 ≤ data < 2 ^ 16 → 0 ≤ k →
  (Z.land data (shl16 (uint16 1) k) >? 0) = Z.testbit data k.
Proof.
  intros Hd Hk. unfold shl16, uint16.
  change (1 mod 2 ^ 16) with 1. rewrite Z.shiftl_1_l.
  destruct (decide (k < 16)) as [Hlt|Hge].
  - rewrite Z.mod_small.
    2:{ split; [apply Z.pow_nonneg; lia|apply Z.pow_lt_mono_r; lia]. }
    destruct (Z.testbit data k) eqn:Hb.
    + assert (Z.land data (2 ^ k) = 2 ^ k) as ->.
      { apply Z.bits_inj'. intros i Hi.
        rewrite Z.land_spec, Z.pow2_bits_eqb by lia.
        destruct (Z.eqb_spec k i) as [->|]; [by rewrite Hb|apply andb_false_r]. }
      apply Z.gtb_lt. apply Z.pow_pos_nonneg; lia.
    + assert (Z.land data (2 ^ k) = 0) as ->; [|done].
      apply Z.bits_inj'. intros i Hi.
      rewrite Z.land_spec, Z.pow2_bits_eqb, Z.bits_0 by lia.
      destruct (Z.eqb_spec k i) as [->|]; [by rewrite Hb|apply andb_false_r].
  - assert (2 ^ k mod 2 ^ 16 = 0) as ->.
    { replace k with (k - 16 + 16) by lia.
      rewrite Z.pow_add_r by lia. apply Z.mod_mul. lia. }
    rewrite Z.land_0_r. symmetry. apply (testbit_above data 16); lia.
Qed.

Lemma uint16_range (z : Z) : 0 ≤ uint16 z < 2 ^ 16.
Proof. unfold uint16. apply Z.mod_pos_bound. lia. Qed.

(** What the Int32 branch computes: the 16-bit word of the first two
    bytes, unsigned. *)
Lemma parseModbusData_Int32 (d : MetricDef.t) (b0 b1 b2 b3 : byte)
    (rest : list byte) :
  MetricDef.DataType d = ModbusInt32 →
  parseModbusData d (b0 :: b1 :: b2 :: b3 :: rest)
  = Done (float64_of_Z (be16 b0 b1), None).
Proof.
  intros Ht. unfold parseModbusData. rewrite Ht.
  change (length (b0 :: b1 :: b2 :: b3 :: rest) <? 4)%nat with false.
  cbv iota. by rewrite Uint16_cons.
Qed.

(** What the UInt16 branch computes: a 32-bit read, which needs four
    bytes although the guard lets two through. *)
Lemma parseModbusData_UInt16 (d : MetricDef.t) (rawData : list byte) :
  MetricDef.DataType d = ModbusUInt16 →
  (2 ≤ length rawData)%nat →
  parseModbusData d rawData
  = match rawData with
    | b0 :: b1 :: b2 :: b3 :: _ =>
        Done (float64_of_Z
                (Z.lor (Z.lor (Z.lor (byteZ b3) (Z.shiftl (byteZ b2) 8))
                              (Z.shiftl (byteZ b1) 16))
                       (Z.shiftl (byteZ b0) 24)), None)
    | _ => Panicked (PanicError (RuntimeIndexOutOfRange 3 (length rawData)))
    end.
Proof.
  intros Ht Hlen. unfold parseModbusData. rewrite Ht.
  destruct (Nat.ltb_spec (length rawData) 2) as [?|_]; [lia|].
  destruct rawData as [|b0 [|b1 [|b2 [|b3 rest]]]]; cbn [length] in *;
    try lia; done.
Qed.

(** C1 (as the code behaves): with data type Int32 the bytes ff ff ff ff
    decode to 65535.0 where the signed 32-bit reading is -1.0; with data
    type UInt16 the two-byte buffer 00 01 makes the decoder panic on an
    out-of-range index, and the four-byte buffer 00 01 00 02 decodes to
    65538.0 where the unsigned 16-bit reading of its first two bytes is
    1.0. *)
Theorem parseModbusData_Int32_UInt16_widths :
  parseModbusData (exampleDef ModbusInt32 None) [xff; xff; xff; xff]
    = Done (float64_of_Z 65535, None)
  ∧ spec_int32_value xff xff xff xff = float64_of_Z (-1)
  ∧ float64_of_Z 65535 ≠ float64_of_Z (-1)
  ∧ parseModbusData (exampleDef ModbusUInt16 None) [x00; x01]
    = Panicked (PanicError (RuntimeIndexOutOfRange 3 2))
  ∧ parseModbusData (exampleDef ModbusUInt16 None) [x00; x01; x00; x02]
    = Done (float64_of_Z 65538, None)
  ∧ spec_uint16_value x00 x01 = float64_of_Z 1
  ∧ float64_of_Z 65538 ≠ float64_of_Z 1.
Proof. repeat split; try (vm_compute; reflexivity); vm_compute; discriminate. Qed.

(** C2 (as stated) fails: on the two-byte buffer 00 00 a Float16 decode
    returns nothing at all, in particular no error. *)
Lemma parseModbusData_Float16_no_error_result :
  (2 ≤ length [x00; x00])%nat
  ∧ ∀ r, parseModbusData (exampleDef ModbusFloat16 None) [x00; x00] ≠ Done r.
Proof. split; [simpl; lia|]. intros r. vm_compute. discriminate. Qed.

(** C2 (amended): for every byte buffer of at least 2 bytes, decoding with
    data type Float16 returns neither a value nor an error: it panics with
    the message "implement". In particular it never returns zero. *)
Theorem parseModbusData_Float16_panics (d : MetricDef.t) (rawData : list byte) :
  MetricDef.DataType d = ModbusFloat16 →
  (2 ≤ length rawData)%nat →
  parseModbusData d rawData = Panicked (PanicString "implement").
Proof.
  intros Ht Hlen. unfold parseModbusData. rewrite Ht.
  destruct (Nat.ltb_spec (length rawData) 2) as [?|_]; [lia|done].
Qed.

Lemma parseModbusData_Float16_panics_witness :
  parseModbusData (exampleDef ModbusFloat16 None) [x3c; x00]
  = Panicked (PanicString "implement").
Proof.
  apply (parseModbusData_Float16_panics (exampleDef ModbusFloat16 None)
           [x3c; x00]); [reflexivity|simpl; lia].
Defined.

(** C3: for each of the six supported data types, a buffer shorter than the
    type's minimum byte length (2, 4, 2, 4, 2, 2) is answered with an
    InsufficientRegisters error, reporting the expected register count and
    the length received, next to Go's zero value; and a buffer of at least
    that length is never answered with an InsufficientRegisters error. *)
Theorem parseModbusData_insufficient_registers (d : MetricDef.t)
    (rawData : list byte) (n : nat) :
  minBytes (MetricDef.DataType d) = Some n →
  ((length rawData < n)%nat →
   parseModbusData d rawData
   = Done (float64_of_Z 0,
           Some (InsufficientRegistersError
                   (expected_got (minRegisters (MetricDef.DataType d)) rawData))))
  ∧ ((n ≤ length rawData)%nat →
     ∀ v e, parseModbusData d rawData
            ≠ Done (v, Some (InsufficientRegistersError e))).
Proof.
  intros Hmin. unfold parseModbusData.
  destruct (MetricDef.DataType d) eqn:Ht; cbn [minBytes minRegisters] in *;
    inversion Hmin; subst n; clear Hmin.
  - split; intros Hlen.
    + destruct (Nat.ltb_spec (length rawData) 2); [done|lia].
    + destruct (Nat.ltb_spec (length rawData) 2); [lia|done].
  - split; intros Hlen.
    + destruct (Nat.ltb_spec (length rawData) 4); [done|lia].
    + destruct (Nat.ltb_spec (length rawData) 4); [lia|].
      destruct (Uint32_long (take 4 rawData)) as [z ->].
      { rewrite length_take. lia. }
      done.
  - split; intros Hlen.
    + destruct (Nat.ltb_spec (length rawData) 2); [done|lia].
    + destruct (Nat.ltb_spec (length rawData) 2); [lia|].
      destruct rawData as [|b0 [|b1 rest]]; cbn [length] in *; try lia.
      rewrite Uint16_cons. done.
  - split; intros Hlen.
    + destruct (Nat.ltb_spec (length rawData) 4); [done|lia].
    + destruct (Nat.ltb_spec (length rawData) 4); [lia|].
      destruct rawData as [|b0 [|b1 rest]]; cbn [length] in *; try lia.
      rewrite Uint16_cons. done.
  - split; intros Hlen.
    + destruct (Nat.ltb_spec (length rawData) 2); [done|lia].
    + destruct (Nat.ltb_spec (length rawData) 2); [lia|].
      destruct (BigEndian_Uint32 rawData); done.
  - split; intros Hlen.
    + destruct (Nat.ltb_spec (length rawData) 2); [done|lia].
    + destruct (Nat.ltb_spec (length rawData) 2); [lia|].
      destruct (MetricDef.BitOffset d) as [off|]; [|done].
      destruct rawData as [|b0 [|b1 rest]]; cbn [length] in *; try lia.
      rewrite Uint16_cons. cbn [mbind exec_bind].
      by destruct (Z.land _ _ >? 0).
Qed.

Lemma parseModbusData_insufficient_registers_witness :
  parseModbusData (exampleDef ModbusInt32 None) [x00; x01; x02]
  = Done (float64_of_Z 0,
          Some (InsufficientRegistersError "expected at least 2, got 3"))
  ∧ ∀ v e, parseModbusData (exampleDef ModbusInt32 None) [x00; x01; x02; x03]
           ≠ Done (v, Some (InsufficientRegistersError e)).
Proof.
  split.
  - apply (proj1 (parseModbusData_insufficient_registers
                    (exampleDef ModbusInt32 None) [x00; x01; x02] 4 eq_refl)).
    simpl; lia.
  - apply (proj2 (parseModbusData_insufficient_registers
                    (exampleDef ModbusInt32 None) [x00; x01; x02; x03] 4
                    eq_refl)).
    simpl; lia.
Defined.

(** The boolean branch on a buffer of at least two bytes: the bit of the
    big-endian word selected by the low 16 bits of the offset. *)
Lemma parseModbusData_Bool_offset (d : MetricDef.t) (b0 b1 : byte)
    (rest : list byte) (off : Z) :
  MetricDef.DataType d = ModbusBool →
  MetricDef.BitOffset d = Some off →
  parseModbusData d (b0 :: b1 :: rest)
  = Done (spec_bool_value (uint16 off) b0 b1, None).
Proof.
  intros Ht Hoff. unfold parseModbusData. rewrite Ht, Hoff.
  change (length (b0 :: b1 :: rest) <? 2)%nat with false. cbv iota.
  rewrite Uint16_cons. cbn [mbind exec_bind]. unfold spec_bool_value.
  rewrite land_shl16_testbit.
  - by destruct (Z.testbit _ _).
  - apply be16_range.
  - apply uint16_range.
Qed.

(** C7 (as stated) fails: with bit offset 65537 the bytes 00 02 decode to
    1.0, although bit 65537 of the word 0x0002 is not set. *)
Lemma parseModbusData_Bool_offset_wraps :
  parseModbusData (exampleDef ModbusBool (Some 65537)) [x00; x02]
    = Done (float64_of_Z 1, None)
  ∧ spec_bool_value 65537 x00 x02 = float64_of_Z 0
  ∧ parseModbusData (exampleDef ModbusBool (Some 65537)) [x00; x02]
    ≠ Done (spec_bool_value 65537 x00 x02, None).
Proof.
  assert (parseModbusData (exampleDef ModbusBool (Some 65537)) [x00; x02]
          = Done (float64_of_Z 1, None)) as Hrun.
  { rewrite (parseModbusData_Bool_offset _ _ _ _ 65537) by reflexivity.
    vm_compute. reflexivity. }
  assert (spec_bool_value 65537 x00 x02 = float64_of_Z 0) as Hspec.
  { unfold spec_bool_value.
    rewrite (testbit_above (be16 x00 x02) 16 65537); [done| |lia].
    apply be16_range. }
  repeat split; [done..|]. rewrite Hrun, Hspec. vm_compute. discriminate.
Qed.

(** C7 (amended): for every boolean-typed definition and every buffer of at
    least 2 bytes, read as a big-endian unsigned 16-bit word: without a bit
    offset the decode fails with the missing-bit-position error; with a bit
    offset it returns 1.0 if the bit of the word at position (offset mod
    65536) is set and 0.0 otherwise, which for an offset from 0 to 65535 is
    the bit at the offset itself, 0 being the least significant. *)
Theorem parseModbusData_Bool (d : MetricDef.t) (b0 b1 : byte)
    (rest : list byte) :
  MetricDef.DataType d = ModbusBool →
  (MetricDef.BitOffset d = None →
   parseModbusData d (b0 :: b1 :: rest)
   = Done (float64_of_Z 0, Some ErrBitPosition))
  ∧ (∀ off, MetricDef.BitOffset d = Some off →
       parseModbusData d (b0 :: b1 :: rest)
       = Done (spec_bool_value (off mod 2 ^ 16) b0 b1, None))
  ∧ (∀ off, MetricDef.BitOffset d = Some off → 0 ≤ off < 2 ^ 16 →
       parseModbusData d (b0 :: b1 :: rest)
       = Done (spec_bool_value off b0 b1, None)).
Proof.
  intros Ht. split; [|split].
  - intros Hoff. unfold parseModbusData. by rewrite Ht, Hoff.
  - intros off Hoff. by apply parseModbusData_Bool_offset.
  - intros off Hoff Hrange.
    rewrite (parseModbusData_Bool_offset d b0 b1 rest off) by done.
    unfold uint16. by rewrite Z.mod_small.
Qed.

Lemma parseModbusData_Bool_witness :
  parseModbusData (exampleDef ModbusBool None) [x00; x02]
    = Done (float64_of_Z 0, Some ErrBitPosition)
  ∧ parseModbusData (exampleDef ModbusBool (Some 1)) [x00; x02]
    = Done (float64_of_Z 1, None)
  ∧ parseModbusData (exampleDef ModbusBool (Some 0)) [x00; x02]
    = Done (float64_of_Z 0, None).
Proof.
  split; [|split].
  - apply (proj1 (parseModbusData_Bool (exampleDef ModbusBool None)
                    x00 x02 [] eq_refl)).
    reflexivity.
  - apply (proj2 (proj2 (parseModbusData_Bool (exampleDef ModbusBool (Some 1))
                           x00 x02 [] eq_refl)) 1); [reflexivity|lia].
  - apply (proj2 (proj2 (parseModbusData_Bool (exampleDef ModbusBool (Some 0))
                           x00 x02 [] eq_refl)) 0); [reflexivity|lia].
Defined.

(** C10 (as stated) fails: bit offset 65536 is 16 or greater, yet the bytes
    00 01 decode to 1.0, the shift count being the offset's low 16 bits. *)
Lemma parseModbusData_Bool_offset_65536 :
  16 ≤ 65536
  ∧ (2 ≤ length [x00; x01])%nat
  ∧ parseModbusData (exampleDef ModbusBool (Some 65536)) [x00; x01]
    = Done (float64_of_Z 1, None)
  ∧ float64_of_Z 1 ≠ float64_of_Z 0.
Proof.
  split; [lia|]. split; [simpl; lia|]. split.
  - rewrite (parseModbusData_Bool_offset _ _ _ _ 65536) by reflexivity.
    vm_compute. reflexivity.
  - vm_compute. discriminate.
Qed.

(** C10 (amended): for every boolean-typed definition whose bit offset has
    low 16 bits (offset mod 65536) of 16 or more, as every offset from 16
    to 65535 has, and every buffer of at least 2 bytes, the decode returns
    0.0 with no error whatever the buffer holds; and whatever the offset,
    the decode of such a buffer returns a value and no error: an offset out
    of range is never rejected. *)
Theorem parseModbusData_Bool_offset_out_of_range (d : MetricDef.t)
    (rawData : list byte) (off : Z) :
  MetricDef.DataType d = ModbusBool →
  MetricDef.BitOffset d = Some off →
  (2 ≤ length rawData)%nat →
  (16 ≤ off mod 2 ^ 16 → parseModbusData d rawData = Done (float64_of_Z 0, None))
  ∧ (16 ≤ off < 2 ^ 16 → parseModbusData d rawData = Done (float64_of_Z 0, None))
  ∧ ∃ v, parseModbusData d rawData = Done (v, None).
Proof.
  intros Ht Hoff Hlen.
  destruct rawData as [|b0 [|b1 rest]]; cbn [length] in Hlen; try lia.
  rewrite (parseModbusData_Bool_offset d b0 b1 rest off) by done.
  assert (16 ≤ off mod 2 ^ 16 →
          spec_bool_value (uint16 off) b0 b1 = float64_of_Z 0) as Hzero.
  { intros Hge. unfold spec_bool_value, uint16.
    rewrite (testbit_above (be16 b0 b1) 16); [done|apply be16_range|lia]. }
  split; [|split].
  - intros Hge. by rewrite Hzero.
  - intros Hge. rewrite Hzero; [done|]. rewrite Z.mod_small; lia.
  - eauto.
Qed.

Lemma parseModbusData_Bool_offset_out_of_range_witness :
  parseModbusData (exampleDef ModbusBool (Some 16)) [xff; xff]
  = Done (float64_of_Z 0, None).
Proof.
  apply (proj1 (proj2 (parseModbusData_Bool_offset_out_of_range
                         (exampleDef ModbusBool (Some 16)) [xff; xff] 16
                         eq_refl eq_refl ltac:(simpl; lia)))).
  lia.
Defined.

(** * Properties of the scraper *)

Section ScraperProperties.
Context {S : Type}.
Implicit Types (c : Client S) (s : S) (d : MetricDef.t).

Lemma scrapeMetrics_loop_eq definitions c s :
  scrapeMetrics definitions c s = scrapeMetrics_loop definitions c [] s.
Proof. by destruct definitions. Qed.

Lemma scrapeMetric_cases d (f : modbusFunc S) s :
  (∃ m s', scrapeMetric d f s = (Done (m, None), s') ∧ assembled d m)
  ∨ (∃ e s', scrapeMetric d f s = (Done (metric.zero, Some e), s'))
  ∨ (∃ p s' rawData, scrapeMetric d f s = (Panicked p, s')
                     ∧ parseModbusData d rawData = Panicked p).
Proof.
  unfold scrapeMetric.
  destruct (f _ _ s) as [[modBytes [err|]] s']; [eauto 10|].
  destruct (parseModbusData d modBytes) as [[v [err|]]|p] eqn:Hparse;
    [eauto 10| |eauto 10].
  left. eexists _, _. split; [done|]. unfold assembled; simpl. eauto 10.
Qed.

(** The loop, whatever it has accumulated: all definitions assembled, or
    a first definition at which an error is returned or a panic raised. *)
Lemma scrapeMetrics_loop_cases definitions c acc s :
  (∃ ms s', scrapeMetrics_loop definitions c acc s
            = (Done (acc ++ ms, None), s')
            ∧ Forall2 assembled definitions ms)
  ∨ (∃ pre d post ms s0,
       definitions = pre ++ d :: post
       ∧ scrapeMetrics_loop pre c acc s = (Done (acc ++ ms, None), s0)
       ∧ Forall2 assembled pre ms
       ∧ ((selectFunc c (MetricDef.Address d) = None
           ∧ scrapeMetrics_loop definitions c acc s
             = (Done ([], Some (ErrAddressRange (MetricDef.Name d)
                                                (MetricDef.Address d))), s0))
          ∨ (∃ f inner s',
               selectFunc c (MetricDef.Address d) = Some f
               ∧ scrapeMetric d f s0 = (Done (metric.zero, Some inner), s')
               ∧ scrapeMetrics_loop definitions c acc s
                 = (Done ([], Some (ErrScrapeMetric (MetricDef.Name d)
                                      (MetricDef.Address d) inner)), s'))
          ∨ (∃ f p s' rawData,
               selectFunc c (MetricDef.Address d) = Some f
               ∧ scrapeMetric d f s0 = (Panicked p, s')
               ∧ parseModbusData d rawData = Panicked p
               ∧ scrapeMetrics_loop definitions c acc s = (Panicked p, s')))).
Proof.
  revert acc s. induction definitions as [|d definitions IH]; intros acc s.
  - left. exists [], s. simpl. rewrite app_nil_r. by split.
  - simpl. destruct (selectFunc c (MetricDef.Address d)) as [f|] eqn:Hsel.
    2:{ right. exists [], d, definitions, [], s. simpl.
        rewrite app_nil_r, Hsel. split_and!; [done..|]. left. done. }
    destruct (scrapeMetric_cases d f s)
      as [(m & s1 & Hrun & Hm)|[(e & s1 & Hrun)|(p & s1 & raw & Hrun & Hp)]].
    + rewrite Hrun.
      destruct (IH (acc ++ [m]) s1)
        as [(ms & s' & Hloop & Hall)
           |(pre & d' & post & ms & s0 & -> & Hpre & Hall & Hfail)].
      * left. exists (m :: ms), s'. rewrite Hloop.
        rewrite <- app_assoc. split; [done|]. by constructor.
      * right. exists (d :: pre), d', post, (m :: ms), s0.
        simpl. rewrite Hsel, Hrun, Hpre, <- app_assoc.
        split_and!; [done|done|by constructor|]. done.
    + rewrite Hrun. right. exists [], d, definitions, [], s. simpl.
      rewrite app_nil_r, Hsel. split_and!; [done..|].
      right; left. eauto 10.
    + rewrite Hrun. right. exists [], d, definitions, [], s. simpl.
      rewrite app_nil_r, Hsel. split_and!; [done..|].
      right; right. eauto 10.
Qed.

End ScraperProperties.

(** C5 (as stated) fails: a list holding one Float16 definition, scraped
    from a client that returns four bytes, yields neither a metric list nor
    an error, because the decode panics. *)
Lemma scrapeMetrics_Float16_neither :
  ¬ scrape_all_or_error [exampleDef ModbusFloat16 None]
      (fake.fixed [x00; x00; x00; x00]) ().
Proof.
  assert (scrapeMetrics [exampleDef ModbusFloat16 None]
            (fake.fixed [x00; x00; x00; x00]) ()
          = (Panicked (PanicString "implement"), ())) as Hrun
    by (vm_compute; reflexivity).
  intros [(ms & s' & H & _)|(e & s' & H)]; rewrite Hrun in H; discriminate.
Qed.

(** C5 (amended): for every list of metric definitions, scraping does one
    of three things. It returns exactly one assembled metric per
    definition, in definition order. Or it stops at the first definition
    that fails to dispatch, to read or to decode and returns an error
    naming that metric and its address together with an empty metric list,
    the connection being left as that definition's read left it. Or it
    stops at the first definition whose decode panics, with that panic. It
    never returns a partial collection. *)
Theorem scrapeMetrics_all_or_first_failure {S} (definitions : list MetricDef.t)
    (c : Client S) (s : S) :
  (∃ ms s', scrapeMetrics definitions c s = (Done (ms, None), s')
            ∧ Forall2 assembled definitions ms)
  ∨ (∃ pre d post s0,
       scraped_up_to c s definitions pre d post s0
       ∧ ((selectFunc c (MetricDef.Address d) = None
           ∧ scrapeMetrics definitions c s
             = (Done ([], Some (ErrAddressRange (MetricDef.Name d)
                                                (MetricDef.Address d))), s0))
          ∨ (∃ f inner s',
               selectFunc c (MetricDef.Address d) = Some f
               ∧ scrapeMetric d f s0 = (Done (metric.zero, Some inner), s')
               ∧ scrapeMetrics definitions c s
                 = (Done ([], Some (ErrScrapeMetric (MetricDef.Name d)
                                      (MetricDef.Address d) inner)), s'))
          ∨ (∃ f p s' rawData,
               selectFunc c (MetricDef.Address d) = Some f
               ∧ scrapeMetric d f s0 = (Panicked p, s')
               ∧ parseModbusData d rawData = Panicked p
               ∧ scrapeMetrics definitions c s = (Panicked p, s')))).
Proof.
  rewrite scrapeMetrics_loop_eq.
  destruct (scrapeMetrics_loop_cases definitions c [] s)
    as [(ms & s' & Hloop & Hall)
       |(pre & d & post & ms & s0 & Hdefs & Hpre & Hall & Hfail)].
  - left. eauto.
  - right. exists pre, d, post, s0. split; [|done].
    split; [done|]. exists ms. by rewrite scrapeMetrics_loop_eq.
Qed.

Lemma uint16_register_address (a : N) :
  uint16 (Z.of_N (a mod 10000)) = Z.of_N (a mod 10000).
Proof.
  unfold uint16. apply Z.mod_small.
  assert (a mod 10000 < 10000)%N as Hlt by (by apply N.mod_upper_bound).
  revert Hlt. generalize (a mod 10000)%N. intros r Hr.
  change (2 ^ 16) with 65536. lia.
Qed.

(** The calls a single definition makes on a recording client. *)
Lemma scrapeMetrics_single_recorded {S} (c : Client S) (s : S)
    (d : MetricDef.t) (fn : fake.ReadFunction) (f : modbusFunc S) :
  selectFunc (fake.recording c) (MetricDef.Address d)
  = Some (λ address quantity '(s, log),
            let '(r, s) := f address quantity s in
            (r, (s, log ++ [fake.mkCall fn address quantity]))) →
  (scrapeMetrics [d] (fake.recording c) (s, [])).2.2
  = [fake.mkCall fn (Z.of_N (MetricDef.Address d mod 10000)) 2].
Proof.
  intros Hsel. unfold scrapeMetrics. cbn [length Nat.eqb scrapeMetrics_loop].
  rewrite Hsel. unfold scrapeMetric. rewrite uint16_register_address.
  change (uint16 2) with 2.
  destruct (f _ _ s) as [[modBytes [err|]] s']; [done|].
  by destruct (parseModbusData d modBytes) as [[v [err|]]|p].
Qed.

(** C6: the read function is chosen by the ten-thousands digit of the
    address: 0 is a coil read, 1 a discrete-input read, 3 an input-register
    read, 4 a holding-register read, each called once, at the address
    modulo 10000, for 2 registers; any other digit (2, and 5 or more) makes
    no call and fails with the range error naming the metric and its
    address. In particular address 40001 is a holding-register read at
    address 1, and address 50000 fails. *)
Theorem scrapeMetrics_dispatch {S} (c : Client S) (s : S) (d : MetricDef.t) :
  (let a := MetricDef.Address d in
   let run := scrapeMetrics [d] (fake.recording c) (s, []) in
   match (a / 10000)%N with
   | 0%N => run.2.2 = [fake.mkCall fake.FReadCoils (Z.of_N (a mod 10000)) 2]
   | 1%N =>
       run.2.2 = [fake.mkCall fake.FReadDiscreteInputs (Z.of_N (a mod 10000)) 2]
   | 3%N =>
       run.2.2 = [fake.mkCall fake.FReadInputRegisters (Z.of_N (a mod 10000)) 2]
   | 4%N =>
       run.2.2 = [fake.mkCall fake.FReadHoldingRegisters (Z.of_N (a mod 10000)) 2]
   | _ =>
       run = (Done ([], Some (ErrAddressRange (MetricDef.Name d) a)), (s, []))
   end)
  ∧ (scrapeMetrics [atAddress d 40001%N] (fake.recording c) (s, [])).2.2
    = [fake.mkCall fake.FReadHoldingRegisters 1 2]
  ∧ scrapeMetrics [atAddress d 50000%N] (fake.recording c) (s, [])
    = (Done ([], Some (ErrAddressRange (MetricDef.Name d) 50000%N)), (s, [])).
Proof.
  split; [|split].
  - cbv zeta.
    destruct (MetricDef.Address d / 10000)%N as [|[[[]|[]|]|[[]|[]|]|]] eqn:Hq;
      lazymatch goal with
      | |- _ = [fake.mkCall fake.FReadCoils _ _] =>
          apply (scrapeMetrics_single_recorded c s d fake.FReadCoils
                   (ReadCoils c))
      | |- _ = [fake.mkCall fake.FReadDiscreteInputs _ _] =>
          apply (scrapeMetrics_single_recorded c s d fake.FReadDiscreteInputs
                   (ReadDiscreteInputs c))
      | |- _ = [fake.mkCall fake.FReadInputRegisters _ _] =>
          apply (scrapeMetrics_single_recorded c s d fake.FReadInputRegisters
                   (ReadInputRegisters c))
      | |- _ = [fake.mkCall fake.FReadHoldingRegisters _ _] =>
          apply (scrapeMetrics_single_recorded c s d fake.FReadHoldingRegisters
                   (ReadHoldingRegisters c))
      | |- _ => idtac
      end;
      unfold scrapeMetrics; cbn [length Nat.eqb scrapeMetrics_loop];
      unfold selectFunc; rewrite Hq; reflexivity.
  - apply (scrapeMetrics_single_recorded c s (atAddress d 40001%N)
             fake.FReadHoldingRegisters (ReadHoldingRegisters c)).
    reflexivity.
  - reflexivity.
Qed.

(** * Properties of the registry adapter *)

Section RegistryProperties.
Context {R : Type} (reg : Registerer R).
Implicit Types (ls : @LoopState R) (m : metric.t) (k : MetricType).

Lemma registerMetrics_loop_app moduleName pre rest ls :
  registerMetrics_loop reg moduleName (pre ++ rest) ls
  = match registerMetrics_loop reg moduleName pre ls with
    | (Done None, ls) => registerMetrics_loop reg moduleName rest ls
    | (r, ls) => (r, ls)
    end.
Proof.
  revert ls. induction pre as [|m pre IH]; intros ls; [done|].
  cbn [app registerMetrics_loop].
  destruct (registerMetric reg moduleName m ls) as [[[err|]|p] ls1];
    [done|apply IH|done].
Qed.

(** [With(labels)] finds the metric at the label values of [labels], and
    a metric it creates there is zero. *)
Lemma GetMetricWith_inr (v v' : Vec) labels key :
  GetMetricWith v labels = inr (key, v') →
  labelValues labels v = Some key
  ∧ fqName v' = fqName v
  ∧ getMetric v' key = getMetric v key
  ∧ ∀ c, setMetric v' key c = setMetric v key c.
Proof.
  unfold GetMetricWith, labelValues.
  destruct (validateValuesInLabels _ _); [done|].
  destruct (mapM _ _) as [key'|]; [|done].
  intros [= <- <-]. unfold getMetric, setMetric.
  destruct (metrics v !! key') as [x|] eqn:Hx; [by rewrite Hx|].
  cbn [fqName help variableLabels metrics].
  rewrite lookup_insert_eq. split_and!; [done..|].
  intros c. by rewrite insert_insert_eq.
Qed.

(** A negative value makes the counter application panic, with an error
    value, whatever the vector and the labels. *)
Lemma applyCounter_negative p labels x ls :
  float64_ltb x (float64_of_Z 0) = true →
  ∃ e ls1, applyCounter p labels x ls = (Panicked (PanicError e), ls1).
Proof.
  intros Hneg. unfold applyCounter.
  destruct (counterVecs (heap ls) !! p) as [v|]; [|eauto].
  destruct (GetMetricWith v labels) as [err|[key v']]; [eauto|].
  unfold Add. change (S754_zero false) with (float64_of_Z 0).
  rewrite Hneg. eauto.
Qed.

(** The iteration on a counter of negative value returns an error. *)
Lemma registerMetric_negative_counter moduleName m ls old :
  metric.MetricType m = MetricTypeCounter →
  float64_ltb (metric.Value m) (float64_of_Z 0) = true →
  labelsOf (metric.Labels m) (heap ls) = Some old →
  let labels := <["module" := moduleName]> old in
  (∃ e ls1, registerMetric reg moduleName m ls = (Done (Some e), ls1))
  ∧ (counterAccepted reg m labels ls →
     ∃ inner ls1,
       registerMetric reg moduleName m ls
       = (Done (Some (ErrApply (metric.Name m) MetricTypeCounter
                               (metric.Value m) labels inner)), ls1)).
Proof.
  intros Hkind Hneg Hold labels. unfold registerMetric.
  assert (∃ l ls0, ensureLabels (metric.Labels m) ls = (l, ls0)
                   ∧ labelMaps (heap ls0) !! l = Some old
                   ∧ counterVecs (heap ls0) = counterVecs (heap ls)
                   ∧ registry ls0 = registry ls
                   ∧ registeredCounters ls0 = registeredCounters ls)
    as (l & ls0 & -> & -> & Hvecs & Hreg & Htab).
  { unfold ensureLabels, labelsOf in *.
    destruct (metric.Labels m) as [l|]; [by eauto 10|].
    simplify_eq. eexists _, _. split; [done|].
    cbn [with_labelMaps heap labelMaps]. by rewrite lookup_app_r, Nat.sub_diag. }
  fold labels. rewrite Hkind.
  cbn [with_labelMaps registeredCounters heap counterVecs registry
       with_counterVecs with_registry with_registeredCounters].
  rewrite Htab, Hvecs, Hreg. unfold counterAccepted.
  destruct (registeredCounters ls !! metric.Name m) as [p|].
  - match goal with
    | |- context [applyCounter ?p ?l ?x ?s] =>
        destruct (applyCounter_negative p l x s Hneg) as (e & ls1 & ->)
    end.
    cbn [recoverError]. split; eauto.
  - destruct (Register reg _ _ _) as [[err|] r'] eqn:Hregister.
    + split; [eauto|]. intros Hacc. specialize (Hacc eq_refl).
      cbn [fst] in Hacc. done.
    + match goal with
      | |- context [applyCounter ?p ?l ?x ?s] =>
          destruct (applyCounter_negative p l x s Hneg) as (e & ls1 & ->)
      end.
      cbn [recoverError]. split; eauto.
Qed.

End RegistryProperties.

(** C4: when the loop of the adapter reaches a counter-kind metric of
    negative value (the metrics before it having been applied), registering
    returns an error and does not panic; and when the counter vector is at
    hand (already in the table, or taken by the registry), that error
    identifies the metric name, the counter kind, the value and the labels,
    module label included, wrapping the error value of the panic trapped
    from the metrics library. *)
Theorem registerMetrics_negative_counter {R} (reg : Registerer R)
    (moduleName : string) (pre post : list metric.t) (m : metric.t)
    (r : R) (h : Heap) (ls : LoopState) (old : gmap string string) :
  registerMetrics_loop reg moduleName pre (registerMetrics_init r h)
  = (Done None, ls) →
  metric.MetricType m = MetricTypeCounter →
  float64_ltb (metric.Value m) (float64_of_Z 0) = true →
  labelsOf (metric.Labels m) (heap ls) = Some old →
  let labels := <["module" := moduleName]> old in
  let res := (registerMetrics reg moduleName (pre ++ m :: post) r h).1 in
  (∃ e, res = Done (Some e))
  ∧ (counterAccepted reg m labels ls →
     ∃ inner, res = Done (Some (ErrApply (metric.Name m) MetricTypeCounter
                                         (metric.Value m) labels inner))).
Proof.
  intros Hpre Hkind Hneg Hold labels res. subst res. unfold registerMetrics.
  rewrite registerMetrics_loop_app, Hpre. cbn [registerMetrics_loop].
  destruct (registerMetric_negative_counter reg moduleName m ls old
              Hkind Hneg Hold) as [(e & ls1 & Hstep) Hacc].
  split.
  - rewrite Hstep. eauto.
  - intros Ha. destruct (Hacc Ha) as (inner & ls1' & ->). eauto.
Qed.

Lemma registerMetrics_negative_counter_witness :
  ∃ inner,
    (registerMetrics fake.registry "plant" [exampleGauge; exampleCounter (-2)]
                     [] fake.emptyHeap).1
    = Done (Some (ErrApply "starts" MetricTypeCounter (float64_of_Z (-2))
                           (<["module" := "plant"]> ∅) inner)).
Proof.
  apply (proj2 (registerMetrics_negative_counter fake.registry "plant"
                  [exampleGauge] [] (exampleCounter (-2)) [] fake.emptyHeap
                  (registerMetrics_loop fake.registry "plant" [exampleGauge]
                     (registerMetrics_init [] fake.emptyHeap)).2
                  ∅
                  ltac:(vm_compute; reflexivity)
                  eq_refl
                  ltac:(vm_compute; reflexivity)
                  eq_refl)).
  unfold counterAccepted. intros _. vm_compute. reflexivity.
Defined.

(** What the counter of the library keeps: increments that are whole
    numbers are summed exactly, where one [float64] sum would lose them,
    and their sum wraps around at 2^64; other increments go to the float
    part. *)
Lemma Add_whole_numbers_wrap :
  counterValue (foldl addMetric zeroMetric
                  [float64_of_Z (2 ^ 53); float64_of_Z 1; float64_of_Z 1])
  = float64_of_Z (2 ^ 53 + 2)
  ∧ float64_add (float64_add (float64_of_Z (2 ^ 53)) (float64_of_Z 1))
                (float64_of_Z 1)
    = float64_of_Z (2 ^ 53)
  ∧ counterValue (foldl addMetric zeroMetric
                    [float64_of_Z (2 ^ 63); float64_of_Z (2 ^ 63)])
    = float64_of_Z 0
  ∧ foldl addMetric zeroMetric
          [S754_finite false (2 ^ 52) (-53); float64_of_Z 3]
    = mkMetric (S754_finite false (2 ^ 52) (-53)) 3.
Proof. split_and!; vm_compute; reflexivity. Qed.

Section RegistryInvariant.
Context {R : Type} (reg : Registerer R).
Implicit Types (ls : @LoopState R) (m : metric.t) (k : MetricType).

Lemma fmap_insert_same_name (l : list Vec) (p : nat) (v0 v1 : Vec) :
  l !! p = Some v0 → fqName v1 = fqName v0 →
  fqName <$> <[p := v1]> l = fqName <$> l.
Proof.
  intros Hp Hname. rewrite list_fmap_insert, Hname.
  apply list_insert_id. by rewrite list_lookup_fmap, Hp.
Qed.

Lemma applyGauge_effect p labels x ls :
  apply_effect MetricTypeGauge p labels x ls
    (applyGauge p labels x ls).1 (applyGauge p labels x ls).2.
Proof.
  unfold applyGauge, apply_effect.
  destruct (gaugeVecs (heap ls) !! p) as [v0|] eqn:Hp;
    [|cbn [fst snd]; split_and!; done].
  destruct (GetMetricWith v0 labels) as [err|[key v']] eqn:Hwith;
    [cbn [fst snd]; split_and!; done|].
  apply GetMetricWith_inr in Hwith as (Hkey & Hname & Hval & Hset).
  cbn [fst snd with_gaugeVecs registry registeredGauges registeredCounters
       heap labelMaps].
  split_and!; try done.
  - intros [| |s]; unfold kindNames; cbn [kindVecs gaugeVecs counterVecs];
      [|done..].
    by apply fmap_insert_same_name with v0.
  - intros [| |s] q Hq; cbn [kindVecs gaugeVecs counterVecs]; [|done..].
    destruct Hq as [?|Hq]; [done|]. by rewrite list_lookup_insert_ne.
  - intros _. exists v0, key.
    cbn [kindVecs gaugeVecs appliedMetric]. split_and!; [done..|].
    unfold Set_. rewrite Hset.
    apply list_lookup_insert_eq. by eapply lookup_lt_Some.
Qed.

Lemma applyCounter_effect p labels x ls :
  apply_effect MetricTypeCounter p labels x ls
    (applyCounter p labels x ls).1 (applyCounter p labels x ls).2.
Proof.
  unfold applyCounter, apply_effect.
  destruct (counterVecs (heap ls) !! p) as [v0|] eqn:Hp;
    [|cbn [fst snd]; split_and!; done].
  destruct (GetMetricWith v0 labels) as [err|[key v']] eqn:Hwith;
    [cbn [fst snd]; split_and!; done|].
  apply GetMetricWith_inr in Hwith as (Hkey & Hname & Hval & Hset).
  assert (length (counterVecs (heap ls)) > p)%nat as Hlt
    by (by eapply lookup_lt_Some).
  unfold Add. destruct (float64_ltb x (S754_zero false));
    cbn [fst snd with_counterVecs registry registeredGauges
         registeredCounters heap labelMaps counterVecs gaugeVecs].
  - split_and!; try done.
    + intros [| |s]; unfold kindNames; cbn [kindVecs gaugeVecs counterVecs];
        [done| |done].
      by apply fmap_insert_same_name with v0.
    + intros [| |s] q Hq; cbn [kindVecs gaugeVecs counterVecs]; [done| |done].
      destruct Hq as [?|Hq]; [done|]. by rewrite list_lookup_insert_ne.
  - rewrite list_insert_insert_eq. split_and!; try done.
    + intros [| |s]; unfold kindNames; cbn [kindVecs gaugeVecs counterVecs];
        [done| |done].
      by apply fmap_insert_same_name with v0.
    + intros [| |s] q Hq; cbn [kindVecs gaugeVecs counterVecs]; [done| |done].
      destruct Hq as [?|Hq]; [done|]. by rewrite list_lookup_insert_ne.
    + intros _. exists v0, key.
      cbn [kindVecs counterVecs appliedMetric]. split_and!; [done..|].
      rewrite Hset, Hval. by apply list_lookup_insert_eq.
Qed.

End RegistryInvariant.

(** The write of the module label goes through the reference the metric
    shares with its definition: after an iteration on a metric whose label
    mapping is the map at [l], that map holds the module label, whatever
    else the iteration does. *)
Lemma registerMetric_writes_shared_labels {R} (reg : Registerer R)
    (moduleName : string) (m : metric.t) (ls : @LoopState R) (l : nat)
    (old : gmap string string) :
  metric.Labels m = Some l →
  labelMaps (heap ls) !! l = Some old →
  labelMaps (heap (registerMetric reg moduleName m ls).2) !! l
  = Some (<["module" := moduleName]> old).
Proof.
  intros Hl Hold. unfold registerMetric, ensureLabels. rewrite Hl, Hold.
  assert (∀ ls1 : @LoopState R,
            labelMaps (heap ls1)
            = <[l := <["module" := moduleName]> old]> (labelMaps (heap ls)) →
            labelMaps (heap ls1) !! l = Some (<["module" := moduleName]> old))
    as Hdone.
  { intros ls1 ->. apply list_lookup_insert_eq. by eapply lookup_lt_Some. }
  destruct (metric.MetricType m) as [| |s]; loop_state_norm.
  - destruct (registeredGauges ls !! metric.Name m) as [p|].
    + match goal with
      | |- context [applyGauge ?p ?lb ?x ?s] =>
          pose proof (applyGauge_effect p lb x s) as (_ & _ & _ & Hmaps & _);
          destruct (applyGauge p lb x s) as [[[]|q] ls1]
      end; cbn [fst snd] in *; by apply Hdone.
    + destruct (Register reg _ _ _) as [[err|] r']; [by apply Hdone|].
      match goal with
      | |- context [applyGauge ?p ?lb ?x ?s] =>
          pose proof (applyGauge_effect p lb x s) as (_ & _ & _ & Hmaps & _);
          destruct (applyGauge p lb x s) as [[[]|q] ls1]
      end; cbn [fst snd] in *; by apply Hdone.
  - destruct (registeredCounters ls !! metric.Name m) as [p|].
    + match goal with
      | |- context [applyCounter ?p ?lb ?x ?s] =>
          pose proof (applyCounter_effect p lb x s) as (_ & _ & _ & Hmaps & _);
          destruct (applyCounter p lb x s) as [[[]|[q|e]] ls1]
      end; cbn [fst snd recoverError] in *; by apply Hdone.
    + destruct (Register reg _ _ _) as [[err|] r']; [by apply Hdone|].
      match goal with
      | |- context [applyCounter ?p ?lb ?x ?s] =>
          pose proof (applyCounter_effect p lb x s) as (_ & _ & _ & Hmaps & _);
          destruct (applyCounter p lb x s) as [[[]|[q|e]] ls1]
      end; cbn [fst snd recoverError] in *; by apply Hdone.
  - apply list_lookup_insert_eq. by eapply lookup_lt_Some.
Qed.

(** C8 (as the code behaves): scraping the module "plant", whose one
    definition has the label mapping unit=V, succeeds and leaves that
    mapping of the configuration as unit=V, module=plant. *)
Theorem Scrape_writes_configured_labels :
  labelMaps exampleHeap !! 0%nat = Some {["unit" := "V"]}
  ∧ (∃ r, exampleScrape.1 = Done (Some r, None))
  ∧ labelMaps exampleScrape.2 !! 0%nat
    = Some (<["module" := "plant"]> {["unit" := "V"]})
  ∧ labelMaps exampleScrape.2 !! 0%nat ≠ labelMaps exampleHeap !! 0%nat.
Proof.
  split; [reflexivity|]. split; [eexists; vm_compute; reflexivity|].
  assert (labelMaps exampleScrape.2 !! 0%nat
          = Some (<["module" := "plant"]> {["unit" := "V"]})) as Hafter
    by (vm_compute; reflexivity).
  split; [done|]. rewrite Hafter. intros Heq.
  apply (f_equal (λ o, o ≫= (.!! "module"))) in Heq.
  vm_compute in Heq. discriminate.
Qed.

Section RegistryIteration.
Context {R : Type} (reg : Registerer R).
Implicit Types (ls : @LoopState R) (m : metric.t) (k : MetricType).

Lemma ensureLabels_spec m ls old :
  labelsOf (metric.Labels m) (heap ls) = Some old →
  ∃ l ls0, ensureLabels (metric.Labels m) ls = (l, ls0)
           ∧ labelMaps (heap ls0) !! l = Some old
           ∧ collectors ls0 = collectors ls.
Proof.
  unfold ensureLabels, labelsOf. destruct (metric.Labels m) as [l|].
  - intros Hl. by exists l, ls.
  - intros [= <-]. eexists _, _. split; [done|]. split; [|done].
    cbn [with_labelMaps heap labelMaps].
    by rewrite lookup_app_r, Nat.sub_diag.
Qed.

(** Every iteration of the loop is one of the five cases. *)
Lemma registerMetric_iteration moduleName m ls :
  iteration reg moduleName m ls
    (registerMetric reg moduleName m ls).1
    (registerMetric reg moduleName m ls).2.
Proof.
  destruct (labelsOf (metric.Labels m) (heap ls)) as [old|] eqn:Hold.
  2:{ unfold registerMetric, ensureLabels.
      pose proof Hold as Hold'. unfold labelsOf in Hold'.
      destruct (metric.Labels m) as [l|] eqn:Hl; [|done].
      rewrite Hold'. apply iter_no_labels. by rewrite Hl. }
  unfold registerMetric.
  destruct (ensureLabels_spec m ls old Hold) as (l & ls0 & -> & -> & Hcol).
  unfold collectors in Hcol. injection Hcol as Hreg Hg Hc Hgv Hcv.
  destruct (metric.MetricType m) as [| |s] eqn:Hkind;
    cbn [with_labelMaps with_gaugeVecs with_counterVecs with_registry
         with_registeredGauges with_registeredCounters registry
         registeredGauges registeredCounters heap gaugeVecs counterVecs
         labelMaps];
    rewrite ?Hreg, ?Hg, ?Hc, ?Hgv, ?Hcv.
  - destruct (registeredGauges ls !! metric.Name m) as [p|] eqn:Htab.
    + match goal with
      | |- context [applyGauge ?p ?l ?x ?s] =>
          pose proof (applyGauge_effect p l x s) as Heff;
          destruct (applyGauge p l x s) as [r ls1]
      end.
      cbn [fst snd] in Heff. settle_outcome r ls1.
      eapply (iter_existing reg moduleName m ls old MetricTypeGauge p);
        [done|by left|done|done| |exact Heff|done].
      unfold collectors. by rewrite <- Hreg, <- Hg, <- Hc, <- Hgv, <- Hcv.
    + destruct (Register reg _ _ (registry ls)) as [[err|] r'] eqn:Hregister.
      * cbn [fst snd].
        eapply (iter_rejected reg moduleName m ls old MetricTypeGauge);
          [done|by left|done|done|exact Hregister|(loop_state_norm; congruence)
          |(loop_state_norm; congruence)| |].
        -- intros [| |s] Hne; loop_state_norm; congruence.
        -- intros [| |s]; loop_state_norm; congruence.
      * match goal with
        | |- context [applyGauge ?p ?l ?x ?s] =>
            pose proof (applyGauge_effect p l x s) as Heff;
            destruct (applyGauge p l x s) as [r ls1]
        end.
        cbn [fst snd] in Heff. settle_outcome r ls1.
        eapply (iter_created reg moduleName m ls old MetricTypeGauge r');
          [done|by left|done|done|exact Hregister| | | | | |exact Heff|done].
        -- (loop_state_norm; congruence).
        -- (loop_state_norm; congruence).
        -- intros [| |s] Hne; loop_state_norm; congruence.
        -- (loop_state_norm; congruence).
        -- intros [| |s] Hne; loop_state_norm; congruence.
  - destruct (registeredCounters ls !! metric.Name m) as [p|] eqn:Htab.
    + match goal with
      | |- context [applyCounter ?p ?l ?x ?s] =>
          pose proof (applyCounter_effect p l x s) as Heff;
          destruct (applyCounter p l x s) as [r ls1]
      end.
      cbn [fst snd] in Heff. settle_outcome r ls1.
      eapply (iter_existing reg moduleName m ls old MetricTypeCounter p);
        [done|by right|done|done| |exact Heff|done].
      unfold collectors. by rewrite <- Hreg, <- Hg, <- Hc, <- Hgv, <- Hcv.
    + destruct (Register reg _ _ (registry ls)) as [[err|] r'] eqn:Hregister.
      * cbn [fst snd].
        eapply (iter_rejected reg moduleName m ls old MetricTypeCounter);
          [done|by right|done|done|exact Hregister|(loop_state_norm; congruence)
          |(loop_state_norm; congruence)| |].
        -- intros [| |s] Hne; loop_state_norm; congruence.
        -- intros [| |s]; loop_state_norm; congruence.
      * match goal with
        | |- context [applyCounter ?p ?l ?x ?s] =>
            pose proof (applyCounter_effect p l x s) as Heff;
            destruct (applyCounter p l x s) as [r ls1]
        end.
        cbn [fst snd] in Heff. settle_outcome r ls1.
        eapply (iter_created reg moduleName m ls old MetricTypeCounter r');
          [done|by right|done|done|exact Hregister| | | | | |exact Heff|done].
        -- (loop_state_norm; congruence).
        -- (loop_state_norm; congruence).
        -- intros [| |s] Hne; loop_state_norm; congruence.
        -- (loop_state_norm; congruence).
        -- intros [| |s] Hne; loop_state_norm; congruence.
  - cbn [fst snd]. eapply iter_other; [done..|].
    unfold collectors. cbn [registry registeredGauges registeredCounters
                            heap gaugeVecs counterVecs].
    by rewrite <- Hreg, <- Hg, <- Hc, <- Hgv, <- Hcv.
Qed.

End RegistryIteration.

Section RegistryTables.
Context {R : Type} (reg : Registerer R).
Implicit Types (ls : @LoopState R) (m : metric.t) (k : MetricType).
Implicit Types (h : Heap) (processed : list metric.t).

Lemma collectors_kindVecs ls0 ls k :
  collectors ls0 = collectors ls → kindVecs k (heap ls0) = kindVecs k (heap ls).
Proof. unfold collectors. intros [= _ _ _ Hg Hc]. by destruct k. Qed.

Lemma collectors_kindTable ls0 ls k :
  collectors ls0 = collectors ls → kindTable k ls0 = kindTable k ls.
Proof. unfold collectors. intros [= _ Hg Hc _ _]. by destruct k. Qed.

Lemma collectors_registry ls0 ls :
  collectors ls0 = collectors ls → registry ls0 = registry ls.
Proof. unfold collectors. by intros [= ? _ _ _ _]. Qed.

Lemma apply_effect_kindTable k p labels x ls0 r ls1 k' :
  apply_effect k p labels x ls0 r ls1 → kindTable k' ls1 = kindTable k' ls0.
Proof. intros (_ & Hg & Hc & _). by destruct k'. Qed.

Lemma kindNames_length k h : length (kindNames k h) = length (kindVecs k h).
Proof. unfold kindNames. apply length_fmap. Qed.

(** What an iteration does to the names and the table of one kind. *)
Lemma iteration_view moduleName m ls res ls1 k :
  iteration reg moduleName m ls res ls1 →
  collectorKind k →
  (kindNames k (heap ls1) = kindNames k (heap ls)
   ∧ kindTable k ls1 = kindTable k ls
   ∧ (res = Done None → metric.MetricType m = k →
      is_Some (kindTable k ls !! metric.Name m)))
  ∨ (metric.MetricType m = k
     ∧ kindTable k ls !! metric.Name m = None
     ∧ kindNames k (heap ls1) = kindNames k (heap ls) ++ [metric.Name m]
     ∧ ((kindTable k ls1 = kindTable k ls ∧ res ≠ Done None)
        ∨ kindTable k ls1
          = <[metric.Name m := length (kindNames k (heap ls))]>
              (kindTable k ls))).
Proof.
  intros Hiter Hk.
  destruct Hiter as
    [p Hold
    |old s ls1 Hold Hkind Hcol
    |old k0 p ls0 r res ls1 Hold Hk0 Hkind Htab Hcol Heff Hres
    |old k0 err r' ls1 Hold Hk0 Hkind Htab vec Hregister Hreg Hvecs Hothers Htabs
    |old k0 r' ls0 r res ls1 Hold Hk0 Hkind Htab vec Hregister Hreg Hvecs
       Hothers Htab0 Htabs Heff Hres].
  - left. split_and!; done.
  - left. split_and!.
    + unfold kindNames. by rewrite (collectors_kindVecs ls1 ls).
    + by apply collectors_kindTable.
    + intros _ Hm. rewrite Hkind in Hm. subst k. by destruct Hk.
  - left. split_and!.
    + destruct Heff as (_ & _ & _ & _ & Hnames & _). rewrite Hnames.
      unfold kindNames. by rewrite (collectors_kindVecs ls0 ls).
    + rewrite (apply_effect_kindTable _ _ _ _ _ _ _ k Heff).
      by apply collectors_kindTable.
    + intros _ Hm. assert (k = k0) as -> by congruence. by rewrite Htab.
  - destruct (decide (k = k0)) as [->|Hne].
    + right. split_and!; [done|done| |left; by rewrite Htabs].
      unfold kindNames. rewrite Hvecs, fmap_app. done.
    + left. split_and!.
      * unfold kindNames. by rewrite Hothers.
      * apply Htabs.
      * intros [=].
  - destruct (decide (k = k0)) as [->|Hne].
    + right. split_and!; [done|done| |right].
      * destruct Heff as (_ & _ & _ & _ & Hnames & _). rewrite Hnames.
        unfold kindNames. rewrite Hvecs, fmap_app. done.
      * rewrite (apply_effect_kindTable _ _ _ _ _ _ _ k0 Heff), Htab0.
        by rewrite kindNames_length.
    + left. split_and!.
      * destruct Heff as (_ & _ & _ & _ & Hnames & _). rewrite Hnames.
        unfold kindNames. by rewrite Hothers.
      * rewrite (apply_effect_kindTable _ _ _ _ _ _ _ k Heff). by apply Htabs.
      * intros _ Hm. congruence.
Qed.

Lemma tables_ok_init (r : R) (h : Heap) :
  tables_ok h [] (registerMetrics_init r h).
Proof.
  intros k Hk. unfold registerMetrics_init. cbn [heap]. split_and!; [done| |].
  - intros n p. split.
    + destruct Hk as [->| ->]; cbn [kindTable registeredGauges
        registeredCounters]; by rewrite lookup_empty.
    + intros [Hle Hp]. apply lookup_lt_Some in Hp. lia.
  - intros n. split.
    + destruct Hk as [->| ->]; cbn [kindTable registeredGauges
        registeredCounters]; rewrite lookup_empty; by intros [? ?].
    + intros (m1 & Hin & _). by apply not_elem_of_nil in Hin.
Qed.

(** The vectors created so far bear distinct names. *)
Lemma tables_ok_created_once h processed ls :
  tables_ok h processed ls → created_once h (heap ls).
Proof.
  intros Hok k.
  assert (collectorKind k ∨ ∃ s, k = MetricTypeOther s) as [Hk|[s ->]]
    by (destruct k; [left; by left|left; by right|right; eauto]).
  2:{ unfold kindNames. cbn [kindVecs fmap list_fmap drop]. constructor. }
  destruct (Hok k Hk) as (Hlen & Htab & _).
  apply NoDup_alt. intros i j n Hi Hj. rewrite lookup_drop in Hi, Hj.
  assert (kindTable k ls !! n = Some (length (kindNames k h) + i)%nat) as H1
    by (apply Htab; split; [lia|done]).
  assert (kindTable k ls !! n = Some (length (kindNames k h) + j)%nat) as H2
    by (apply Htab; split; [lia|done]).
  rewrite H1 in H2. injection H2. lia.
Qed.

(** An iteration that lets the loop go on keeps the tables right. *)
Lemma tables_ok_step h processed moduleName m ls ls1 :
  tables_ok h processed ls →
  iteration reg moduleName m ls (Done None) ls1 →
  tables_ok h (processed ++ [m]) ls1.
Proof.
  intros Hok Hiter k Hk. destruct (Hok k Hk) as (Hlen & Htab & Hdom).
  destruct (iteration_view moduleName m ls (Done None) ls1 k Hiter Hk)
    as [(Hnames & Htable & Hin)
       |(Hkind & Hnone & Hnames & [[_ Hne]|Htable])]; [| done |].
  - rewrite Hnames, Htable. split_and!; [done..|].
    intros n. rewrite Hdom. split.
    + intros (m1 & Hm1 & ?). exists m1. rewrite elem_of_app. eauto.
    + intros (m1 & Hm1 & Hn & Hkd). apply elem_of_app in Hm1 as [Hm1|Hm1].
      * eauto.
      * apply list_elem_of_singleton in Hm1 as ->. subst n.
        apply Hdom. by apply Hin.
  - rewrite Hnames, Htable, length_app. cbn [length]. split_and!; [lia| |].
    + intros n p. destruct (decide (metric.Name m = n)) as [<-|Hn].
      * rewrite lookup_insert_eq. split.
        -- intros [= <-]. split; [done|].
           by rewrite lookup_app_r, Nat.sub_diag.
        -- intros [Hle Hp]. f_equal.
           destruct (decide (p < length (kindNames k (heap ls)))%nat)
             as [Hlt|Hge].
           ++ rewrite lookup_app_l in Hp by done.
              assert (kindTable k ls !! metric.Name m = Some p) as Hsome
                by (by apply Htab).
              by rewrite Hnone in Hsome.
           ++ apply lookup_lt_Some in Hp. rewrite length_app in Hp.
              cbn [length] in Hp. lia.
      * rewrite lookup_insert_ne by done. rewrite Htab. split.
        -- intros [Hle Hp]. split; [done|].
           rewrite lookup_app_l; [done|]. by eapply lookup_lt_Some.
        -- intros [Hle Hp]. split; [done|].
           destruct (decide (p < length (kindNames k (heap ls)))%nat)
             as [Hlt|Hge]; [by rewrite lookup_app_l in Hp|].
           rewrite lookup_app_r in Hp by lia.
           apply list_lookup_singleton_Some in Hp as [_ ?]. done.
    + intros n. rewrite lookup_insert_is_Some, Hdom. split.
      * intros [<-|[_ (m1 & Hm1 & ?)]].
        -- exists m. rewrite elem_of_app, list_elem_of_singleton. eauto.
        -- exists m1. rewrite elem_of_app. eauto.
      * intros (m1 & Hm1 & Hn & Hkd). apply elem_of_app in Hm1 as [Hm1|Hm1].
        -- destruct (decide (metric.Name m = n)); [by left|right; eauto].
        -- apply list_elem_of_singleton in Hm1 as ->. by left.
Qed.

(** After an iteration, whatever its outcome, the vectors created so far
    still bear distinct names. *)
Lemma iteration_created_once h processed moduleName m ls res ls1 :
  tables_ok h processed ls →
  iteration reg moduleName m ls res ls1 →
  created_once h (heap ls1).
Proof.
  intros Hok Hiter k.
  assert (collectorKind k ∨ ∃ s, k = MetricTypeOther s) as [Hk|[s ->]]
    by (destruct k; [left; by left|left; by right|right; eauto]).
  2:{ unfold kindNames. cbn [kindVecs fmap list_fmap drop]. constructor. }
  pose proof (tables_ok_created_once h processed ls Hok k) as Hnodup.
  destruct (Hok k Hk) as (Hlen & Htab & _).
  destruct (iteration_view moduleName m ls res ls1 k Hiter Hk)
    as [(Hnames & _)|(Hkind & Hnone & Hnames & _)]; rewrite Hnames; [done|].
  rewrite drop_app_le by done. apply NoDup_app. split_and!; [done| |].
  - intros n Hn Hm. apply list_elem_of_singleton in Hm as ->.
    apply list_elem_of_lookup in Hn as [i Hi]. rewrite lookup_drop in Hi.
    assert (kindTable k ls !! metric.Name m
            = Some (length (kindNames k h) + i)%nat) as Hsome
      by (apply Htab; split; [lia|done]).
    by rewrite Hnone in Hsome.
  - apply NoDup_singleton.
Qed.

Lemma registerMetrics_loop_tables_ok h processed moduleName metrics ls ls' :
  tables_ok h processed ls →
  registerMetrics_loop reg moduleName metrics ls = (Done None, ls') →
  tables_ok h (processed ++ metrics) ls'.
Proof.
  revert processed ls. induction metrics as [|m metrics IH];
    intros processed ls Hok Hloop.
  - cbn [registerMetrics_loop] in Hloop. injection Hloop as <-.
    by rewrite app_nil_r.
  - cbn [registerMetrics_loop] in Hloop.
    pose proof (registerMetric_iteration reg moduleName m ls) as Hiter.
    destruct (registerMetric reg moduleName m ls) as [[[err|]|p] ls1];
      [done| |done].
    cbn [fst snd] in Hiter.
    rewrite (assoc_L _ processed [m] metrics : processed ++ m :: metrics = _).
    eapply IH; [|done]. by eapply tables_ok_step.
Qed.

Lemma registerMetrics_loop_created_once h processed moduleName metrics ls :
  tables_ok h processed ls →
  created_once h (heap (registerMetrics_loop reg moduleName metrics ls).2).
Proof.
  revert processed ls. induction metrics as [|m metrics IH];
    intros processed ls Hok.
  - by eapply tables_ok_created_once.
  - cbn [registerMetrics_loop].
    pose proof (registerMetric_iteration reg moduleName m ls) as Hiter.
    destruct (registerMetric reg moduleName m ls) as [[[err|]|p] ls1];
      cbn [fst snd] in *.
    + by eapply iteration_created_once.
    + eapply IH. by eapply tables_ok_step.
    + by eapply iteration_created_once.
Qed.

Lemma lookup_snoc_ne {A} (l : list A) (x : A) (q : nat) :
  q ≠ length l → (l ++ [x]) !! q = l !! q.
Proof.
  intros Hq. destruct (decide (q < length l)%nat) as [Hlt|Hge].
  - by rewrite lookup_app_l.
  - rewrite !lookup_ge_None_2; [done|lia|].
    rewrite length_app. cbn [length]. lia.
Qed.

(** A metric whose name and kind were met before is applied to the
    vector the table has for them. *)
Lemma iteration_reuses h processed moduleName m ls res ls1 k :
  tables_ok h processed ls →
  iteration reg moduleName m ls res ls1 →
  collectorKind k → metric.MetricType m = k →
  (∃ m1, m1 ∈ processed ∧ metric.Name m1 = metric.Name m
         ∧ metric.MetricType m1 = k) →
  reuses_from_table h k m moduleName ls res ls1.
Proof.
  intros Hok Hiter Hk Hkind Hseen.
  destruct (Hok k Hk) as (Hlen & Htab & Hdom).
  apply Hdom in Hseen as [p Hp].
  pose proof (proj1 (Htab _ _) Hp) as [Hle Hname].
  unfold kindNames in Hname. rewrite list_lookup_fmap in Hname.
  destruct (kindVecs k (heap ls) !! p) as [v0|] eqn:Hv0; [|done].
  injection Hname as Hname. rewrite kindNames_length in Hle.
  exists p, v0.
  destruct Hiter as
    [q Hold
    |old s ls1 Hold Hkind' Hcol
    |old k0 p0 ls0 r res ls1 Hold Hk0 Hkind' Htab0 Hcol Heff Hres
    |old k0 err r' ls1 Hold Hk0 Hkind' Htab0 vec Hregister Hreg Hvecs
       Hothers Htabs
    |old k0 r' ls0 r res ls1 Hold Hk0 Hkind' Htab0 vec Hregister Hreg Hvecs
       Hothers Htab1 Htabs Heff Hres].
  - split_and!; done.
  - rewrite Hkind in Hkind'. subst k. by destruct Hk.
  - assert (k0 = k) as -> by congruence.
    assert (p0 = p) as -> by congruence.
    destruct Heff as (Hregistry & Hg & Hc & _ & Hnames & Hframe & Hval).
    split_and!; [done..| | | | |].
    + intros k'. rewrite Hnames. unfold kindNames.
      by rewrite (collectors_kindVecs ls0 ls).
    + rewrite Hregistry. by apply collectors_registry.
    + intros k'.
      assert (kindTable k' ls1 = kindTable k' ls0) as ->
        by (destruct k'; cbn [kindTable]; congruence).
      by apply collectors_kindTable.
    + intros k' q Hq. rewrite Hframe by done.
      by rewrite (collectors_kindVecs ls0 ls).
    + intros Hdone. apply Hres in Hdone.
      destruct (Hval Hdone) as (v0' & key & Hbefore & Hkey & Hafter).
      rewrite (collectors_kindVecs ls0 ls), Hv0 in Hbefore by done.
      injection Hbefore as <-. eauto.
  - assert (k0 = k) as -> by congruence. congruence.
  - assert (k0 = k) as -> by congruence. congruence.
Qed.

(** A metric whose name and kind are met for the first time has its
    vector created and offered to the registry. *)
Lemma iteration_creates h processed moduleName m ls res ls1 k old :
  tables_ok h processed ls →
  iteration reg moduleName m ls res ls1 →
  collectorKind k → metric.MetricType m = k →
  labelsOf (metric.Labels m) (heap ls) = Some old →
  (∀ m1, m1 ∈ processed →
         ¬ (metric.Name m1 = metric.Name m ∧ metric.MetricType m1 = k)) →
  creates_in_table reg k m (<["module" := moduleName]> old) ls res ls1.
Proof.
  intros Hok Hiter Hk Hkind Hlabels Hfirst.
  destruct (Hok k Hk) as (Hlen & Htab & Hdom).
  assert (kindTable k ls !! metric.Name m = None) as Hnone.
  { apply eq_None_not_Some. intros Hsome.
    apply Hdom in Hsome as (m1 & Hm1 & Hn & Hkd). by apply (Hfirst m1). }
  unfold creates_in_table.
  destruct Hiter as
    [q Hold
    |old' s ls1 Hold Hkind' Hcol
    |old' k0 p0 ls0 r res ls1 Hold Hk0 Hkind' Htab0 Hcol Heff Hres
    |old' k0 err r' ls1 Hold Hk0 Hkind' Htab0 vec Hregister Hreg Hvecs
       Hothers Htabs
    |old' k0 r' ls0 r res ls1 Hold Hk0 Hkind' Htab0 vec Hregister Hreg Hvecs
       Hothers Htab1 Htabs Heff Hres].
  - congruence.
  - rewrite Hkind in Hkind'. subst k. by destruct Hk.
  - assert (k0 = k) as -> by congruence. congruence.
  - assert (k0 = k) as -> by congruence.
    assert (old' = old) as -> by congruence. subst vec.
    split_and!; [done| | | | |done].
    + unfold kindNames. by rewrite Hvecs, fmap_app.
    + intros k' q Hq. destruct (decide (k' = k)) as [->|Hne].
      * rewrite Hvecs. apply lookup_snoc_ne. by destruct Hq.
      * by rewrite Hothers.
    + by rewrite Hregister.
    + intros err'. rewrite Hregister. cbn [fst]. by intros [= <-].
  - assert (k0 = k) as -> by congruence.
    assert (old' = old) as -> by congruence. subst vec.
    destruct Heff as (Hregistry & Hg & Hc & _ & Hnames & Hframe & Hval).
    assert (kindNames k (heap ls1)
            = kindNames k (heap ls) ++ [metric.Name m]) as Hnames1.
    { rewrite Hnames. unfold kindNames. by rewrite Hvecs, fmap_app. }
    split_and!; [done|done| | | |].
    + intros k' q Hq. rewrite Hframe by done.
      destruct (decide (k' = k)) as [->|Hne].
      * rewrite Hvecs. apply lookup_snoc_ne. by destruct Hq.
      * by rewrite Hothers.
    + by rewrite Hregistry, Hregister.
    + intros err'. by rewrite Hregister.
    + intros Hdone. apply Hres in Hdone. split_and!.
      * assert (kindTable k ls1 = kindTable k ls0) as ->.
        { destruct Hk as [->| ->]; cbn [kindTable]; congruence. }
        rewrite Htab1. apply lookup_insert_eq.
      * by rewrite Hregister.
      * destruct (Hval Hdone) as (v0 & key & Hbefore & Hkey & Hafter).
        rewrite Hvecs, lookup_app_r, Nat.sub_diag in Hbefore by done.
        injection Hbefore as <-. exists key. split; [done|].
        rewrite Hafter. unfold getMetric, NewVec. cbn [metrics].
        by rewrite lookup_empty.
Qed.

(** The vectors created so far are those of the names processed. *)
Lemma tables_ok_created_for h processed ls k :
  tables_ok h processed ls → collectorKind k →
  created_for h (heap ls) processed k.
Proof.
  intros Hok Hk n. destruct (Hok k Hk) as (Hlen & Htab & Hdom).
  rewrite <- Hdom. split.
  - intros Hin. apply list_elem_of_lookup in Hin as [i Hi].
    rewrite lookup_drop in Hi.
    exists (length (kindNames k h) + i)%nat. apply Htab. split; [lia|done].
  - intros [p Hp]. apply Htab in Hp as [Hle Hp].
    apply list_elem_of_lookup. exists (p - length (kindNames k h))%nat.
    rewrite lookup_drop.
    by replace (length (kindNames k h) + (p - length (kindNames k h)))%nat
      with p by lia.
Qed.

(** From the table to the heap: the vector the table has for a name is the
    one vector of that name created in this run. *)
Lemma reuses_from_table_run h processed moduleName m ls res ls1 k :
  tables_ok h processed ls → collectorKind k →
  reuses_from_table h k m moduleName ls res ls1 →
  reuses_collector h k m moduleName (registry ls) (heap ls)
                   (res, (registry ls1, heap ls1)).
Proof.
  intros Hok Hk
    (p & v0 & Htab & Hle & Hv0 & Hname & Hnames & Hreg & _ & Hframe & Hval).
  destruct (Hok k Hk) as (_ & Htabs & _).
  exists p, v0. cbn [fst snd]. split_and!; try done.
  intros q Hq Hn.
  assert (kindTable k ls !! metric.Name m = Some q) as Hsome.
  { apply Htabs. split; [by rewrite kindNames_length|done]. }
  congruence.
Qed.

Lemma creates_in_table_run h processed m labels ls res ls1 k :
  tables_ok h processed ls → collectorKind k →
  creates_in_table reg k m labels ls res ls1 →
  creates_collector reg h k m labels (registry ls) (heap ls)
                    (res, (registry ls1, heap ls1)).
Proof.
  intros Hok Hk (Hnone & Hnames & Hframe & Hreg & Herr & Hval).
  destruct (Hok k Hk) as (_ & Htabs & _).
  unfold creates_collector. cbn [fst snd]. split_and!; try done.
  - intros q Hq Hn.
    assert (kindTable k ls !! metric.Name m = Some q) as Hsome.
    { apply Htabs. split; [by rewrite kindNames_length|done]. }
    congruence.
  - intros Hdone. by destruct (Hval Hdone) as (_ & ? & ?).
Qed.

(** The run on a list of metrics that succeeds is the loop on it. *)
Lemma registerMetrics_Done moduleName metrics r h r0 h0 :
  registerMetrics reg moduleName metrics r h = (Done None, (r0, h0)) →
  ∃ ls, registerMetrics_loop reg moduleName metrics (registerMetrics_init r h)
        = (Done None, ls)
        ∧ registry ls = r0 ∧ heap ls = h0.
Proof.
  unfold registerMetrics.
  destruct (registerMetrics_loop reg moduleName metrics
              (registerMetrics_init r h)) as [res ls].
  intros [= -> <- <-]. eauto.
Qed.

(** The run on one metric more is the run on the metrics before it, then
    the iteration on that metric. *)
Lemma registerMetrics_snoc moduleName pre m r h ls :
  registerMetrics_loop reg moduleName pre (registerMetrics_init r h)
  = (Done None, ls) →
  registerMetrics reg moduleName (pre ++ [m]) r h
  = ((registerMetric reg moduleName m ls).1,
     (registry (registerMetric reg moduleName m ls).2,
      heap (registerMetric reg moduleName m ls).2)).
Proof.
  intros Hpre. unfold registerMetrics.
  rewrite registerMetrics_loop_app, Hpre. cbn [registerMetrics_loop].
  by destruct (registerMetric reg moduleName m ls) as [[[e|]|q] ls1].
Qed.

(** The run ends at the first iteration that does not succeed. *)
Lemma registerMetrics_ends moduleName pre m post r h ls :
  registerMetrics_loop reg moduleName pre (registerMetrics_init r h)
  = (Done None, ls) →
  (registerMetric reg moduleName m ls).1 ≠ Done None →
  registerMetrics reg moduleName (pre ++ m :: post) r h
  = registerMetrics reg moduleName (pre ++ [m]) r h.
Proof.
  intros Hpre Hfail. unfold registerMetrics.
  rewrite !registerMetrics_loop_app, Hpre. cbn [registerMetrics_loop].
  by destruct (registerMetric reg moduleName m ls) as [[[e|]|q] ls1].
Qed.

End RegistryTables.

(** C9: in one run of the adapter, no two vectors of the same kind created
    by the run bear the same name, whatever the outcome of the run, and
    when the run succeeds the vectors it created, of each collector kind,
    are those of the names its metrics of that kind bear. For a gauge or
    counter metric [m] of the run, the run on the metrics before it having
    succeeded, compare it with the run that goes on to [m]: if that run
    fails, the whole run ends with its result; if no metric before [m] had
    its name and kind, that run creates the one vector of that name and
    kind, offers it to the registry and, if it succeeds, the vector holds
    the value at the label values of [m], module label included, and
    nothing else; if a metric before [m] had, that run creates and
    registers nothing and changes only the vector created for that name
    and kind, at the label values of [m]: a gauge value is set, a counter
    value is added by the library's [Add]. *)
Theorem registerMetrics_one_collector_per_name_and_kind {R}
    (reg : Registerer R) (moduleName : string) (metrics : list metric.t)
    (r : R) (h : Heap) :
  created_once h (registerMetrics reg moduleName metrics r h).2.2
  ∧ (∀ r' h' k,
       registerMetrics reg moduleName metrics r h = (Done None, (r', h')) →
       collectorKind k → created_for h h' metrics k)
  ∧ ∀ pre m post k r0 h0,
      metrics = pre ++ m :: post →
      registerMetrics reg moduleName pre r h = (Done None, (r0, h0)) →
      metric.MetricType m = k → collectorKind k →
      let run := registerMetrics reg moduleName (pre ++ [m]) r h in
      (run.1 ≠ Done None → registerMetrics reg moduleName metrics r h = run)
      ∧ ((∃ m1, m1 ∈ pre ∧ metric.Name m1 = metric.Name m
                ∧ metric.MetricType m1 = k) →
         reuses_collector h k m moduleName r0 h0 run)
      ∧ (∀ old,
           labelsOf (metric.Labels m) h0 = Some old →
           (∀ m1, m1 ∈ pre →
                  ¬ (metric.Name m1 = metric.Name m
                     ∧ metric.MetricType m1 = k)) →
           creates_collector reg h k m (<["module" := moduleName]> old)
                             r0 h0 run).
Proof.
  split_and!.
  - unfold registerMetrics.
    pose proof (registerMetrics_loop_created_once reg h [] moduleName metrics
                  (registerMetrics_init r h) (tables_ok_init r h)) as Hnodup.
    by destruct (registerMetrics_loop reg moduleName metrics
                   (registerMetrics_init r h)) as [res ls'].
  - intros r' h' k Hrun Hk.
    apply registerMetrics_Done in Hrun as (ls & Hloop & _ & <-).
    apply (tables_ok_created_for h ([] ++ metrics) ls k); [|done].
    by eapply registerMetrics_loop_tables_ok; [apply tables_ok_init|].
  - intros pre m post k r0 h0 -> Hrun Hkind Hk run. subst run.
    apply registerMetrics_Done in Hrun as (ls & Hpre & <- & <-).
    pose proof (registerMetrics_loop_tables_ok reg h [] moduleName pre _ ls
                  (tables_ok_init r h) Hpre) as Hok.
    rewrite app_nil_l in Hok.
    pose proof (registerMetric_iteration reg moduleName m ls) as Hiter.
    rewrite (registerMetrics_snoc reg moduleName pre m r h ls Hpre).
    split_and!.
    + cbn [fst]. intros Hfail.
      rewrite (registerMetrics_ends reg moduleName pre m post r h ls Hpre Hfail).
      apply registerMetrics_snoc, Hpre.
    + intros Hseen. eapply reuses_from_table_run; [done..|].
      by eapply iteration_reuses.
    + intros old Hold Hfirst. eapply creates_in_table_run; [done..|].
      by eapply iteration_creates.
Qed.

Lemma registerMetrics_one_collector_per_name_and_kind_witness :
  let run1 :=
    registerMetrics fake.registry "plant" [exampleGauge] [] fake.emptyHeap in
  let run2 :=
    registerMetrics fake.registry "plant" [exampleGauge; exampleGauge]
                    [] fake.emptyHeap in
  creates_collector fake.registry fake.emptyHeap MetricTypeGauge exampleGauge
    (<["module" := "plant"]> ∅) [] fake.emptyHeap run1
  ∧ reuses_collector fake.emptyHeap MetricTypeGauge exampleGauge "plant"
      run1.2.1 run1.2.2 run2
  ∧ created_for fake.emptyHeap run2.2.2 [exampleGauge; exampleGauge]
      MetricTypeGauge.
Proof.
  split_and!.
  - apply (proj2 (proj2 (proj2 (proj2
             (registerMetrics_one_collector_per_name_and_kind
                fake.registry "plant" [exampleGauge; exampleGauge]
                [] fake.emptyHeap))
             [] exampleGauge [exampleGauge] MetricTypeGauge [] fake.emptyHeap
             eq_refl eq_refl eq_refl (or_introl eq_refl))) ∅).
    + reflexivity.
    + intros m1 Hin. by apply not_elem_of_nil in Hin.
  - apply (proj1 (proj2 (proj2 (proj2
             (registerMetrics_one_collector_per_name_and_kind
                fake.registry "plant" [exampleGauge; exampleGauge]
                [] fake.emptyHeap))
             [exampleGauge] exampleGauge [] MetricTypeGauge
             (registerMetrics fake.registry "plant" [exampleGauge]
                              [] fake.emptyHeap).2.1
             (registerMetrics fake.registry "plant" [exampleGauge]
                              [] fake.emptyHeap).2.2
             eq_refl ltac:(vm_compute; reflexivity) eq_refl
             (or_introl eq_refl)))).
    exists exampleGauge. split; [apply list_elem_of_here|]. split; reflexivity.
  - apply (proj1 (proj2
             (registerMetrics_one_collector_per_name_and_kind
                fake.registry "plant" [exampleGauge; exampleGauge]
                [] fake.emptyHeap))
             (registerMetrics fake.registry "plant"
                [exampleGauge; exampleGauge] [] fake.emptyHeap).2.1
             (registerMetrics fake.registry "plant"
                [exampleGauge; exampleGauge] [] fake.emptyHeap).2.2
             MetricTypeGauge ltac:(vm_compute; reflexivity)
             (or_introl eq_refl)).
Defined.

(** * Further properties of the register decoder *)

Lemma check_range_spec (test : Z → bool) (bits : nat) (base z : Z) :
  check_range test bits base = true →
  base ≤ z < base + 2 ^ Z.of_nat bits → test z = true.
Proof.
  revert base. induction bits as [|bits IH]; intros base Hcheck Hz.
  - cbn [check_range] in Hcheck. change (2 ^ Z.of_nat 0) with 1 in Hz.
    by replace z with base by lia.
  - cbn [check_range] in Hcheck. apply andb_prop in Hcheck as [Hlo Hhi].
    assert (2 ^ Z.of_nat (S bits) = 2 ^ Z.of_nat bits + 2 ^ Z.of_nat bits)
      as Hpow.
    { rewrite Nat2Z.inj_succ, Z.pow_succ_r by lia. lia. }
    destruct (decide (z < base + 2 ^ Z.of_nat bits)).
    + apply (IH base); [done|lia].
    + apply (IH (base + 2 ^ Z.of_nat bits)); [done|lia].
Qed.

Lemma float64_of_Z_exact_check :
  check_range
    (λ z, match Z_of_float64 (float64_of_Z z) with
          | Some z' => z' =? z
          | None => false
          end)
    17 (- 2 ^ 16) = true.
Proof. vm_cast_no_check (eq_refl true). Qed.

(** Integers of up to 16 bits and a sign are converted without rounding. *)
Lemma float64_of_Z_exact (z : Z) :
  - 2 ^ 16 ≤ z < 2 ^ 16 → Z_of_float64 (float64_of_Z z) = Some z.
Proof.
  intros Hz. pose proof float64_of_Z_exact_check as Hall.
  apply (check_range_spec _ _ _ z) in Hall.
  - cbv beta in Hall.
    destruct (Z_of_float64 (float64_of_Z z)) as [z'|]; [|done].
    apply Z.eqb_eq in Hall. by subst.
  - change (2 ^ Z.of_nat 17) with (2 ^ 17). lia.
Qed.

(** X1: When the decoder returns an error, the value next to it is Go's zero
    value, and the error is one of three: too few bytes, a boolean without
    bit position, a data type that is not known. *)
Theorem parseModbusData_error_has_zero_value (d : MetricDef.t)
    (rawData : list byte) (v : float64) (e : error) :
  parseModbusData d rawData = Done (v, Some e) →
  v = float64_of_Z 0
  ∧ (e = InsufficientRegistersError
           (expected_got (minRegisters (MetricDef.DataType d)) rawData)
     ∨ e = ErrBitPosition ∨ e = ErrUnknownDataType).
Proof.
  unfold parseModbusData.
  destruct (MetricDef.DataType d); cbn [minRegisters].
  - destruct (length rawData <? 2)%nat; [|done]. intros [= <- <-]. eauto.
  - destruct (length rawData <? 4)%nat; [intros [= <- <-]; eauto|].
    by destruct (BigEndian_Uint32 _).
  - destruct (length rawData <? 2)%nat; [intros [= <- <-]; eauto|].
    by destruct (BigEndian_Uint16 _).
  - destruct (length rawData <? 4)%nat; [intros [= <- <-]; eauto|].
    by destruct (BigEndian_Uint16 _).
  - destruct (length rawData <? 2)%nat; [intros [= <- <-]; eauto|].
    by destruct (BigEndian_Uint32 _).
  - destruct (length rawData <? 2)%nat; [intros [= <- <-]; eauto|].
    destruct (MetricDef.BitOffset d); [|intros [= <- <-]; eauto].
    destruct (BigEndian_Uint16 _); cbn [mbind exec_bind]; [|done].
    by destruct (Z.land _ _ >? 0).
  - intros [= <- <-]. eauto.
Qed.

Lemma parseModbusData_error_has_zero_value_witness :
  float64_of_Z 0 = float64_of_Z 0
  ∧ (ErrBitPosition
     = InsufficientRegistersError
         (expected_got (minRegisters ModbusBool) [x00; x01])
     ∨ ErrBitPosition = ErrBitPosition ∨ ErrBitPosition = ErrUnknownDataType).
Proof.
  apply (parseModbusData_error_has_zero_value (exampleDef ModbusBool None)
           [x00; x01] (float64_of_Z 0) ErrBitPosition).
  reflexivity.
Defined.

Lemma Uint32_short (b : list byte) :
  (length b < 4)%nat →
  BigEndian_Uint32 b = Panicked (PanicError (RuntimeIndexOutOfRange 3 (length b))).
Proof.
  destruct b as [|b0 [|b1 [|b2 [|b3 rest]]]]; cbn [length]; intros; try lia; done.
Qed.

(** X2: The decoder panics in two cases only: a Float16 definition given at
    least 2 bytes, and a UInt16 definition given 2 or 3 bytes. *)
Theorem parseModbusData_panics_iff (d : MetricDef.t) (rawData : list byte)
    (p : panic_value) :
  parseModbusData d rawData = Panicked p
  ↔ (MetricDef.DataType d = ModbusFloat16 ∧ (2 ≤ length rawData)%nat
     ∧ p = PanicString "implement")
    ∨ (MetricDef.DataType d = ModbusUInt16 ∧ (2 ≤ length rawData < 4)%nat
       ∧ p = PanicError (RuntimeIndexOutOfRange 3 (length rawData))).
Proof.
  unfold parseModbusData.
  destruct (MetricDef.DataType d) eqn:Ht.
  - destruct (Nat.ltb_spec (length rawData) 2); split.
    + done.
    + intros [(_ & ? & _)|([=] & _)]. lia.
    + intros [= <-]. left. done.
    + intros [(_ & _ & ->)|([=] & _)]. done.
  - split; [|by intros [([=] & _)|([=] & _)]].
    destruct (Nat.ltb_spec (length rawData) 4); [done|].
    destruct (Uint32_long (take 4 rawData)) as [z ->]; [|done].
    rewrite length_take. lia.
  - split; [|by intros [([=] & _)|([=] & _)]].
    destruct (Nat.ltb_spec (length rawData) 2); [done|].
    destruct rawData as [|b0 [|b1 rest]]; cbn [length] in *; try lia.
    by rewrite Uint16_cons.
  - split; [|by intros [([=] & _)|([=] & _)]].
    destruct (Nat.ltb_spec (length rawData) 4); [done|].
    destruct rawData as [|b0 [|b1 rest]]; cbn [length] in *; try lia.
    by rewrite Uint16_cons.
  - destruct (Nat.ltb_spec (length rawData) 2) as [Hlt|Hge].
    { split; [done|]. intros [([=] & _)|(_ & ? & _)]. lia. }
    destruct (Nat.lt_ge_cases (length rawData) 4) as [Hlt4|Hge4].
    + rewrite Uint32_short by done. cbn [mbind exec_bind]. split.
      * intros [= <-]. right. split_and!; done || lia.
      * intros [([=] & _)|(_ & _ & ->)]. done.
    + destruct (Uint32_long rawData Hge4) as [z ->]. cbn [mbind exec_bind].
      split; [done|]. intros [([=] & _)|(_ & ? & _)]. lia.
  - split; [|by intros [([=] & _)|([=] & _)]].
    destruct (Nat.ltb_spec (length rawData) 2); [done|].
    destruct (MetricDef.BitOffset d); [|done].
    destruct rawData as [|b0 [|b1 rest]]; cbn [length] in *; try lia.
    rewrite Uint16_cons. cbn [mbind exec_bind]. by destruct (Z.land _ _ >? 0).
  - split; [done|]. by intros [([=] & _)|([=] & _)].
Qed.

(** X3: The decoder reads no byte past the fourth. *)
Theorem parseModbusData_first_four_bytes (d : MetricDef.t)
    (b0 b1 b2 b3 : byte) (rest : list byte) :
  parseModbusData d (b0 :: b1 :: b2 :: b3 :: rest)
  = parseModbusData d [b0; b1; b2; b3].
Proof.
  unfold parseModbusData.
  destruct (MetricDef.DataType d); reflexivity.
Qed.

(** X4: With data type Int16 and at least 2 bytes, the decoder returns the
    two's-complement reading of the big-endian word of the first two bytes,
    between -32768 and 32767, without rounding: the integer can be read
    back from the value. *)
Theorem parseModbusData_Int16 (d : MetricDef.t) (b0 b1 : byte)
    (rest : list byte) :
  MetricDef.DataType d = ModbusInt16 →
  let z := if byteZ b0 <? 128 then be16 b0 b1 else be16 b0 b1 - 2 ^ 16 in
  parseModbusData d (b0 :: b1 :: rest) = Done (float64_of_Z z, None)
  ∧ - 2 ^ 15 ≤ z < 2 ^ 15
  ∧ Z_of_float64 (float64_of_Z z) = Some z.
Proof.
  intros Ht z. unfold parseModbusData. rewrite Ht.
  change (length (b0 :: b1 :: rest) <? 2)%nat with false. cbv iota.
  rewrite Uint16_cons. cbn [mbind exec_bind].
  pose proof (byteZ_range b0) as H0. pose proof (byteZ_range b1) as H1.
  assert (int16 (be16 b0 b1) = z) as ->.
  { unfold int16, z, be16. rewrite Z.mod_small by lia.
    destruct (Z.ltb_spec (byteZ b0) 128), (Z.ltb_spec (byteZ b0 * 2 ^ 8 + byteZ b1) (2 ^ 15));
      lia. }
  assert (- 2 ^ 15 ≤ z < 2 ^ 15) as Hz.
  { unfold z, be16. destruct (Z.ltb_spec (byteZ b0) 128); lia. }
  split_and!; [done|lia|lia|]. apply float64_of_Z_exact. lia.
Qed.

Lemma parseModbusData_Int16_witness :
  parseModbusData (exampleDef ModbusInt16 None) [xff; xfe]
  = Done (float64_of_Z (-2), None).
Proof.
  apply (proj1 (parseModbusData_Int16 (exampleDef ModbusInt16 None)
                  xff xfe [] eq_refl)).
Defined.

(** * Further properties of the scraper *)

Section ScraperComposition.
Context {S : Type}.
Implicit Types (c : Client S) (s : S) (d : MetricDef.t).

(** The accumulated slice is only ever a prefix of the result. *)
Lemma scrapeMetrics_loop_acc definitions c acc s :
  scrapeMetrics_loop definitions c acc s
  = match scrapeMetrics_loop definitions c [] s with
    | (Done (ms, None), s') => (Done (acc ++ ms, None), s')
    | other => other
    end.
Proof.
  revert acc s. induction definitions as [|d definitions IH]; intros acc s.
  - cbn [scrapeMetrics_loop]. by rewrite app_nil_r.
  - cbn [scrapeMetrics_loop]. destruct (selectFunc c _) as [f|]; [|done].
    destruct (scrapeMetric d f s) as [[[m [err|]]|p] s1]; [done| |done].
    rewrite (IH (acc ++ [m])), (IH ([] ++ [m])).
    destruct (scrapeMetrics_loop definitions c [] s1) as [[[ms [err|]]|p] s2];
      [done| |done].
    by rewrite <- app_assoc.
Qed.

Lemma scrapeMetrics_loop_app pre post c acc s :
  scrapeMetrics_loop (pre ++ post) c acc s
  = match scrapeMetrics_loop pre c acc s with
    | (Done (ms, None), s') => scrapeMetrics_loop post c ms s'
    | other => other
    end.
Proof.
  revert acc s. induction pre as [|d pre IH]; intros acc s; [done|].
  cbn [app scrapeMetrics_loop]. destruct (selectFunc c _) as [f|]; [|done].
  destruct (scrapeMetric d f s) as [[[m [err|]]|p] s1]; [done| |done].
  apply IH.
Qed.

End ScraperComposition.

(** X5: Scraping a list made of two parts is scraping the first part and then,
    if that succeeds, the second on the connection as the first left it:
    the metrics of both, in order, or the error or panic of the second. *)
Theorem scrapeMetrics_app {S} (c : Client S) (s s1 : S)
    (pre post : list MetricDef.t) (ms1 : list metric.t) :
  scrapeMetrics pre c s = (Done (ms1, None), s1) →
  scrapeMetrics (pre ++ post) c s
  = match scrapeMetrics post c s1 with
    | (Done (ms2, None), s2) => (Done (ms1 ++ ms2, None), s2)
    | other => other
    end.
Proof.
  rewrite !scrapeMetrics_loop_eq. intros Hpre.
  rewrite scrapeMetrics_loop_app, Hpre. apply scrapeMetrics_loop_acc.
Qed.

Lemma scrapeMetrics_app_witness :
  scrapeMetrics ([exampleDef ModbusInt16 None] ++ [exampleDef ModbusBool None])
                (fake.fixed [x00; x07; x00; x00]) ()
  = (Done ([], Some (ErrScrapeMetric "example" 40001%N ErrBitPosition)), ()).
Proof.
  apply (scrapeMetrics_app (fake.fixed [x00; x07; x00; x00]) () ()
           [exampleDef ModbusInt16 None] [exampleDef ModbusBool None]
           [metric.mk "example" "help" None (float64_of_Z 7) MetricTypeGauge]).
  vm_compute. reflexivity.
Defined.

(** X6: A read that fails is not decoded: whatever bytes come with the error
    and whatever the data type, scraping stops there with the error of the
    client, wrapped with the name and address of the metric, and an empty
    list; the definitions after it are not read. *)
Theorem scrapeMetrics_read_error {S} (c : Client S) (s s0 s1 : S)
    (pre post : list MetricDef.t) (d : MetricDef.t) (ms : list metric.t)
    (f : modbusFunc S) (modBytes : list byte) (e : error) :
  scrapeMetrics pre c s = (Done (ms, None), s0) →
  selectFunc c (MetricDef.Address d) = Some f →
  f (Z.of_N (MetricDef.Address d mod 10000)) 2 s0 = ((modBytes, Some e), s1) →
  scrapeMetrics (pre ++ d :: post) c s
  = (Done ([], Some (ErrScrapeMetric (MetricDef.Name d) (MetricDef.Address d) e)),
     s1).
Proof.
  rewrite !scrapeMetrics_loop_eq. intros Hpre Hsel Hread.
  rewrite scrapeMetrics_loop_app, Hpre. cbn [scrapeMetrics_loop].
  rewrite Hsel. unfold scrapeMetric. rewrite uint16_register_address.
  change (uint16 2) with 2. by rewrite Hread.
Qed.

Lemma scrapeMetrics_read_error_witness :
  scrapeMetrics ([] ++ exampleDef ModbusFloat16 None :: [])
    {| ReadCoils := λ _ _ s, (([], None), s);
       ReadDiscreteInputs := λ _ _ s, (([], None), s);
       ReadInputRegisters := λ _ _ s, (([], None), s);
       ReadHoldingRegisters :=
         λ _ _ s, (([x00; x00], Some (ErrLibrary "timeout")), s) |} ()
  = (Done ([], Some (ErrScrapeMetric "example" 40001%N (ErrLibrary "timeout"))),
     ()).
Proof.
  apply (scrapeMetrics_read_error _ () () () [] [] (exampleDef ModbusFloat16 None)
           [] (λ _ _ s, (([x00; x00], Some (ErrLibrary "timeout")), s))
           [x00; x00] (ErrLibrary "timeout"));
    reflexivity.
Defined.

(** X7: On a client that records its calls, scraping makes the expected read
    of each definition it gets to, in definition order and nothing else:
    one read of 2 registers per definition, at the address modulo 10000;
    when scraping succeeds, every definition was read. *)
Theorem scrapeMetrics_reads {St} (c : Client St) (s : St) (log : list fake.Call)
    (definitions : list MetricDef.t) :
  let run := scrapeMetrics definitions (fake.recording c) (s, log) in
  (∃ n calls, mapM expectedCall (take n definitions) = Some calls
              ∧ run.2.2 = log ++ calls)
  ∧ ∀ ms, run.1 = Done (ms, None) →
          ∃ calls, mapM expectedCall definitions = Some calls
                   ∧ run.2.2 = log ++ calls.
Proof.
  cbv zeta. rewrite scrapeMetrics_loop_eq. generalize (@nil metric.t) as acc.
  revert s log. induction definitions as [|d definitions IH]; intros s log acc.
  - cbn [scrapeMetrics_loop fst snd]. split.
    + exists 0%nat, []. by rewrite app_nil_r.
    + intros ms _. exists []. by rewrite app_nil_r.
  - cbn [scrapeMetrics_loop].
    assert (∀ fn (f : modbusFunc St),
              selectFunc (fake.recording c) (MetricDef.Address d)
              = Some (λ address quantity '(s, log),
                        let '(r, s) := f address quantity s in
                        (r, (s, log ++ [fake.mkCall fn address quantity]))) →
              expectedCall d
              = Some (fake.mkCall fn
                        (Z.of_N (MetricDef.Address d mod 10000)) 2) →
              let run :=
                match selectFunc (fake.recording c) (MetricDef.Address d) with
                | Some f =>
                    match scrapeMetric d f (s, log) with
                    | (Done (m, Some err), s) =>
                        (Done ([], Some (ErrScrapeMetric (MetricDef.Name d)
                                           (MetricDef.Address d) err)), s)
                    | (Done (m, None), s) =>
                        scrapeMetrics_loop definitions (fake.recording c)
                                           (acc ++ [m]) s
                    | (Panicked p, s) => (Panicked p, s)
                    end
                | None =>
                    (Done ([], Some (ErrAddressRange (MetricDef.Name d)
                                       (MetricDef.Address d))), (s, log))
                end in
              (∃ n calls, mapM expectedCall (take n (d :: definitions))
                          = Some calls ∧ run.2.2 = log ++ calls)
              ∧ ∀ ms, run.1 = Done (ms, None) →
                      ∃ calls, mapM expectedCall (d :: definitions) = Some calls
                               ∧ run.2.2 = log ++ calls) as Hcase.
    { intros fn f Hsel Hcall. cbv zeta. rewrite Hsel. unfold scrapeMetric.
      rewrite uint16_register_address. change (uint16 2) with 2.
      set (call := fake.mkCall fn (Z.of_N (MetricDef.Address d mod 10000)) 2).
      assert (mapM expectedCall (take 1 (d :: definitions)) = Some [call])
        as Hone by (cbn [take mapM]; by rewrite Hcall).
      destruct (f _ _ s) as [[modBytes [err|]] s1].
      { cbn [fst snd]. split; [by exists 1%nat, [call]|done]. }
      destruct (parseModbusData d modBytes) as [[v [err|]]|p].
      - cbn [fst snd]. split; [by exists 1%nat, [call]|done].
      - destruct (IH s1 (log ++ [call]) (acc ++ [metric.mk (MetricDef.Name d)
                    (MetricDef.Help d) (MetricDef.Labels d) v
                    (MetricDef.MetricType d)])) as [(n & calls & Hn & Hlog) Hok].
        split.
        + exists (S n), (call :: calls). cbn [take mapM]. rewrite Hcall.
          cbn [mbind option_bind]. rewrite Hn. cbn [mbind option_bind mret option_ret].
          split; [done|]. by rewrite Hlog, <- app_assoc.
        + intros ms Hms. destruct (Hok ms Hms) as (calls' & Hall & Hlog').
          exists (call :: calls'). cbn [mapM]. rewrite Hcall.
          cbn [mbind option_bind]. rewrite Hall. cbn [mbind option_bind mret option_ret].
          split; [done|]. by rewrite Hlog', <- app_assoc.
      - cbn [fst snd]. split; [by exists 1%nat, [call]|done]. }
    destruct (MetricDef.Address d / 10000)%N as [|[[[]|[]|]|[[]|[]|]|]] eqn:Hq;
      first
        [ solve [apply (Hcase fake.FReadCoils (ReadCoils c));
                 unfold selectFunc, expectedCall; rewrite Hq; reflexivity]
        | solve [apply (Hcase fake.FReadDiscreteInputs (ReadDiscreteInputs c));
                 unfold selectFunc, expectedCall; rewrite Hq; reflexivity]
        | solve [apply (Hcase fake.FReadInputRegisters (ReadInputRegisters c));
                 unfold selectFunc, expectedCall; rewrite Hq; reflexivity]
        | solve [apply (Hcase fake.FReadHoldingRegisters
                          (ReadHoldingRegisters c));
                 unfold selectFunc, expectedCall; rewrite Hq; reflexivity]
        | unfold selectFunc; rewrite Hq; cbn [fst snd];
          (split; [exists 0%nat, []; split; [reflexivity|by rewrite app_nil_r]
                  |done]) ].
Qed.

Lemma scrapeMetrics_reads_witness :
  ∃ calls,
    mapM expectedCall [exampleDef ModbusInt16 None] = Some calls
    ∧ (scrapeMetrics [exampleDef ModbusInt16 None]
         (fake.recording (fake.fixed [x00; x07; x00; x00])) ((), [])).2.2
      = [] ++ calls.
Proof.
  apply (proj2 (scrapeMetrics_reads (fake.fixed [x00; x07; x00; x00]) () []
                  [exampleDef ModbusInt16 None])
               [metric.mk "example" "help" None (float64_of_Z 7)
                          MetricTypeGauge]).
  vm_compute. reflexivity.
Defined.

(** * Further properties of the registry adapter *)

Section RegistryLabels.
Context {R : Type} (reg : Registerer R).
Implicit Types (ls : @LoopState R) (m : metric.t).

(** An iteration on a metric whose label mapping is nil is the iteration
    on the same metric with a new, empty map for its labels. *)
Lemma registerMetric_nil_labels moduleName m ls :
  metric.Labels m = None →
  registerMetric reg moduleName m ls
  = registerMetric reg moduleName
      (metric.mk (metric.Name m) (metric.Help m)
                 (Some (length (labelMaps (heap ls))))
                 (metric.Value m) (metric.MetricType m))
      (with_labelMaps (λ maps, maps ++ [∅]) ls).
Proof. intros Hl. unfold registerMetric. by rewrite Hl. Qed.

Lemma registerMetric_labelMaps_ref moduleName m ls l old :
  metric.Labels m = Some l →
  labelMaps (heap ls) !! l = Some old →
  labelMaps (heap (registerMetric reg moduleName m ls).2)
  = <[l := <["module" := moduleName]> old]> (labelMaps (heap ls)).
Proof.
  intros Hl Hold. unfold registerMetric, ensureLabels. rewrite Hl, Hold.
  destruct (metric.MetricType m) as [| |s]; loop_state_norm; [| |done].
  - destruct (registeredGauges ls !! metric.Name m) as [p|].
    + match goal with
      | |- context [applyGauge ?p ?lb ?x ?s] =>
          pose proof (applyGauge_effect p lb x s) as (_ & _ & _ & Hmaps & _);
          destruct (applyGauge p lb x s) as [[[]|q] ls1]
      end; cbn [fst snd] in *; by rewrite Hmaps.
    + destruct (Register reg _ _ _) as [[err|] r']; [done|].
      match goal with
      | |- context [applyGauge ?p ?lb ?x ?s] =>
          pose proof (applyGauge_effect p lb x s) as (_ & _ & _ & Hmaps & _);
          destruct (applyGauge p lb x s) as [[[]|q] ls1]
      end; cbn [fst snd] in *; by rewrite Hmaps.
  - destruct (registeredCounters ls !! metric.Name m) as [p|].
    + match goal with
      | |- context [applyCounter ?p ?lb ?x ?s] =>
          pose proof (applyCounter_effect p lb x s) as (_ & _ & _ & Hmaps & _);
          destruct (applyCounter p lb x s) as [[[]|[q|e]] ls1]
      end; cbn [fst snd recoverError] in *; by rewrite Hmaps.
    + destruct (Register reg _ _ _) as [[err|] r']; [done|].
      match goal with
      | |- context [applyCounter ?p ?lb ?x ?s] =>
          pose proof (applyCounter_effect p lb x s) as (_ & _ & _ & Hmaps & _);
          destruct (applyCounter p lb x s) as [[[]|[q|e]] ls1]
      end; cbn [fst snd recoverError] in *; by rewrite Hmaps.
Qed.

(** What one iteration does to the label maps of the heap: the map the
    metric refers to gets the module label, a nil map is replaced by a new
    map holding the module label, no other map changes. *)
Lemma registerMetric_labelMaps moduleName m ls :
  labelMaps (heap (registerMetric reg moduleName m ls).2)
  = match metric.Labels m with
    | Some l =>
        match labelMaps (heap ls) !! l with
        | Some old => <[l := <["module" := moduleName]> old]> (labelMaps (heap ls))
        | None => labelMaps (heap ls)
        end
    | None => labelMaps (heap ls) ++ [<["module" := moduleName]> ∅]
    end.
Proof.
  destruct (metric.Labels m) as [l|] eqn:Hl.
  - destruct (labelMaps (heap ls) !! l) as [old|] eqn:Hold.
    + by apply registerMetric_labelMaps_ref.
    + unfold registerMetric, ensureLabels. by rewrite Hl, Hold.
  - rewrite registerMetric_nil_labels by done.
    rewrite (registerMetric_labelMaps_ref _ _ _ (length (labelMaps (heap ls))) ∅).
    + cbn [with_labelMaps heap labelMaps].
      by rewrite insert_app_r_alt, Nat.sub_diag.
    + done.
    + cbn [with_labelMaps heap labelMaps].
      by rewrite lookup_app_r, Nat.sub_diag.
Qed.

End RegistryLabels.

Section RegistryLabelRuns.
Context {R : Type} (reg : Registerer R).
Implicit Types (ls : @LoopState R) (m : metric.t).

Lemma registerMetric_label_map_at moduleName m ls l lm :
  labelMaps (heap ls) !! l = Some lm →
  let maps := labelMaps (heap (registerMetric reg moduleName m ls).2) in
  (maps !! l = Some lm ∨ maps !! l = Some (<["module" := moduleName]> lm))
  ∧ (metric.Labels m ≠ Some l → maps !! l = Some lm).
Proof.
  intros Hl. cbv zeta. rewrite registerMetric_labelMaps.
  destruct (metric.Labels m) as [l0|].
  - destruct (labelMaps (heap ls) !! l0) as [old|] eqn:Hold;
      [|split; [by left|done]].
    destruct (decide (l0 = l)) as [->|Hne].
    + rewrite list_lookup_insert_eq by (by eapply lookup_lt_Some).
      split; [right; congruence|done].
    + rewrite list_lookup_insert_ne by done. split; [by left|done].
  - rewrite lookup_app_l by (by eapply lookup_lt_Some). split; [by left|done].
Qed.

Lemma registerMetrics_loop_label_map_at moduleName metrics ls l lm :
  labelMaps (heap ls) !! l = Some lm →
  let maps :=
    labelMaps (heap (registerMetrics_loop reg moduleName metrics ls).2) in
  (maps !! l = Some lm ∨ maps !! l = Some (<["module" := moduleName]> lm))
  ∧ ((∀ m, m ∈ metrics → metric.Labels m ≠ Some l) → maps !! l = Some lm).
Proof.
  revert ls lm. induction metrics as [|m metrics IH]; intros ls lm Hl.
  { cbn [registerMetrics_loop snd]. split; [by left|done]. }
  cbv zeta. cbn [registerMetrics_loop].
  destruct (registerMetric_label_map_at moduleName m ls l lm Hl)
    as [Hstep Hother].
  destruct (registerMetric reg moduleName m ls) as [[[err|]|p] ls1];
    cbn [fst snd] in *.
  - split; [done|]. intros Hno. apply Hother, Hno, list_elem_of_here.
  - split.
    + destruct Hstep as [H1|H1]; destruct (IH ls1 _ H1) as [[H2|H2] _]; auto.
      right. by rewrite H2, insert_insert_eq.
    + intros Hno.
      assert (labelMaps (heap ls1) !! l = Some lm) as H1
        by apply Hother, Hno, list_elem_of_here.
      apply (IH ls1 lm H1). intros m' Hm'. apply Hno. by apply list_elem_of_further.
  - split; [done|]. intros Hno. apply Hother, Hno, list_elem_of_here.
Qed.

Lemma registerMetrics_loop_module_label moduleName metrics ls ls' m l :
  registerMetrics_loop reg moduleName metrics ls = (Done None, ls') →
  m ∈ metrics → metric.Labels m = Some l →
  ∃ lm, labelMaps (heap ls') !! l = Some lm
        ∧ lm !! "module" = Some moduleName.
Proof.
  revert ls. induction metrics as [|m0 metrics IH]; intros ls Hloop Hin Hl.
  { by apply not_elem_of_nil in Hin. }
  cbn [registerMetrics_loop] in Hloop.
  pose proof (registerMetric_labelMaps reg moduleName m0 ls) as Hmaps.
  destruct (registerMetric reg moduleName m0 ls) as [[[err|]|p] ls1] eqn:Hstep;
    [done| |done].
  cbn [snd] in Hmaps.
  apply elem_of_cons in Hin as [->|Hin]; [|by eapply IH].
  rewrite Hl in Hmaps.
  destruct (labelMaps (heap ls) !! l) as [old|] eqn:Hold.
  - assert (labelMaps (heap ls1) !! l = Some (<["module" := moduleName]> old))
      as H1.
    { rewrite Hmaps. apply list_lookup_insert_eq. by eapply lookup_lt_Some. }
    pose proof (registerMetrics_loop_label_map_at moduleName metrics ls1 l _ H1)
      as [[H2|H2] _]; rewrite Hloop in H2; cbn [snd] in H2.
    + eexists. split; [done|]. apply lookup_insert_eq.
    + eexists. split; [done|]. apply lookup_insert_eq.
  - unfold registerMetric, ensureLabels in Hstep. by rewrite Hl, Hold in Hstep.
Qed.

End RegistryLabelRuns.

(** X9: Registering changes a label map of the heap in one way only: it sets
    the module label. A map that no registered metric refers to is left as
    it was. *)
Theorem registerMetrics_label_maps {R} (reg : Registerer R)
    (moduleName : string) (metrics : list metric.t) (r : R) (h : Heap)
    (l : nat) (old : gmap string string) :
  labelMaps h !! l = Some old →
  let h' := (registerMetrics reg moduleName metrics r h).2.2 in
  (∃ lm, labelMaps h' !! l = Some lm ∧ module_labelled moduleName old lm)
  ∧ ((∀ m, m ∈ metrics → metric.Labels m ≠ Some l) →
     labelMaps h' !! l = Some old).
Proof.
  intros Hl. cbv zeta. unfold registerMetrics.
  pose proof (registerMetrics_loop_label_map_at reg moduleName metrics
                (registerMetrics_init r h) l old Hl) as [Hany Hnone].
  destruct (registerMetrics_loop reg moduleName metrics
              (registerMetrics_init r h)) as [res ls'].
  cbn [fst snd] in *. split; [|done].
  destruct Hany as [H1|H1]; eexists; (split; [exact H1|]); [by left|by right].
Qed.

Lemma registerMetrics_label_maps_witness :
  labelMaps (registerMetrics fake.registry "plant" [exampleGauge] []
               exampleHeap).2.2 !! 0%nat
  = Some {["unit" := "V"]}.
Proof.
  apply (proj2 (registerMetrics_label_maps fake.registry "plant" [exampleGauge]
                  [] exampleHeap 0%nat {["unit" := "V"]} eq_refl)).
  intros m Hm. apply list_elem_of_singleton in Hm as ->. discriminate.
Defined.

(** X10: When registering succeeds, the label map of every registered metric
    that has one holds the module label with the name of the module. *)
Theorem registerMetrics_sets_module_label {R} (reg : Registerer R)
    (moduleName : string) (metrics : list metric.t) (r : R) (h : Heap)
    (m : metric.t) (l : nat) :
  (registerMetrics reg moduleName metrics r h).1 = Done None →
  m ∈ metrics → metric.Labels m = Some l →
  ∃ lm, labelMaps (registerMetrics reg moduleName metrics r h).2.2 !! l = Some lm
        ∧ lm !! "module" = Some moduleName.
Proof.
  unfold registerMetrics.
  destruct (registerMetrics_loop reg moduleName metrics
              (registerMetrics_init r h)) as [res ls'] eqn:Hloop.
  cbn [fst snd]. intros -> Hin Hl.
  by eapply registerMetrics_loop_module_label.
Qed.

Lemma registerMetrics_sets_module_label_witness :
  ∃ lm,
    labelMaps (registerMetrics fake.registry "plant"
                 [metric.mk "voltage" "line voltage" (Some 0%nat)
                            (float64_of_Z 230) MetricTypeGauge]
                 [] exampleHeap).2.2 !! 0%nat = Some lm
    ∧ lm !! "module" = Some "plant".
Proof.
  apply (registerMetrics_sets_module_label fake.registry "plant"
           [metric.mk "voltage" "line voltage" (Some 0%nat)
                      (float64_of_Z 230) MetricTypeGauge]
           [] exampleHeap
           (metric.mk "voltage" "line voltage" (Some 0%nat)
                      (float64_of_Z 230) MetricTypeGauge) 0%nat).
  - vm_compute. reflexivity.
  - apply list_elem_of_here.
  - reflexivity.
Defined.

(** X11: Registering stops at the first metric whose iteration does not
    succeed: it returns the outcome of that iteration, error or panic, and
    the metrics after it are not applied. *)
Theorem registerMetrics_stops_at_first_failure {R} (reg : Registerer R)
    (moduleName : string) (pre post : list metric.t) (m : metric.t)
    (r : R) (h : Heap) (ls : LoopState) :
  registerMetrics_loop reg moduleName pre (registerMetrics_init r h)
  = (Done None, ls) →
  (registerMetric reg moduleName m ls).1 ≠ Done None →
  registerMetrics reg moduleName (pre ++ m :: post) r h
  = ((registerMetric reg moduleName m ls).1,
     (registry (registerMetric reg moduleName m ls).2,
      heap (registerMetric reg moduleName m ls).2)).
Proof.
  intros Hpre Hfail. unfold registerMetrics.
  rewrite registerMetrics_loop_app, Hpre. cbn [registerMetrics_loop].
  by destruct (registerMetric reg moduleName m ls) as [[[err|]|p] ls1].
Qed.

Lemma registerMetrics_stops_at_first_failure_witness :
  (registerMetrics fake.registry "plant"
     ([exampleGauge] ++ exampleCounter (-2) :: [exampleCounter 5]) []
     fake.emptyHeap).2.1
  = [("voltage", 0%nat); ("starts", 0%nat)].
Proof.
  rewrite (registerMetrics_stops_at_first_failure fake.registry "plant"
             [exampleGauge] [exampleCounter 5] (exampleCounter (-2)) []
             fake.emptyHeap
             (registerMetrics_loop fake.registry "plant" [exampleGauge]
                (registerMetrics_init [] fake.emptyHeap)).2
             ltac:(vm_compute; reflexivity)
             ltac:(vm_compute; discriminate)).
  vm_compute. reflexivity.
Defined.

(** X8: The keys of a map: each key once, and nothing else. *)
Theorem keys_spec (m : gmap string string) :
  NoDup (keys m)
  ∧ (∀ k, k ∈ keys m ↔ is_Some (m !! k))
  ∧ length (keys m) = size m.
Proof.
  unfold keys. split_and!.
  - apply NoDup_fst_map_to_list.
  - intros k. rewrite list_elem_of_fmap. split.
    + intros ([k' v] & -> & Hin). apply elem_of_map_to_list in Hin. eauto.
    + intros [v Hv]. exists (k, v). split; [done|]. by apply elem_of_map_to_list.
  - by rewrite length_fmap, length_map_to_list.
Qed.

Section RegistryBranches.
Context {R : Type} (reg : Registerer R).
Implicit Types (ls : @LoopState R) (m : metric.t).

(** A vector made for the keys of a label map takes that label map, as
    long as its values are valid UTF-8. *)
Lemma GetMetricWith_NewVec name help (labels : gmap string string) :
  (∀ k v, labels !! k = Some v → ValidString v = true) →
  ∃ key, GetMetricWith (NewVec name help (keys labels)) labels
         = inr (key, mkVec name help (keys labels) {[key := zeroMetric]}).
Proof.
  intros Hvalid. unfold GetMetricWith, validateValuesInLabels, NewVec.
  cbn [variableLabels metrics fqName prometheus.help].
  destruct (keys_spec labels) as (_ & Hkeys & Hlen).
  rewrite bool_decide_eq_true_2 by done.
  assert (forallb (λ kv : string * string, ValidString kv.2)
                  (map_to_list labels) = true) as ->.
  { apply forallb_forall. intros [k v] Hin. apply list_elem_of_In in Hin.
    apply elem_of_map_to_list in Hin. by eapply Hvalid. }
  destruct (mapM (λ name0, labels !! name0) (keys labels)) as [key|] eqn:Hkey.
  - exists key. by rewrite lookup_empty, insert_empty.
  - exfalso. apply eq_None_not_Some in Hkey. apply Hkey. apply mapM_is_Some.
    apply Forall_forall. intros k Hk. by apply Hkeys.
Qed.

(** A library panic under [applyCounter] always carries an error value. *)
Lemma applyCounter_panic_error p labels x ls q ls1 :
  applyCounter p labels x ls = (Panicked q, ls1) → ∃ e, q = PanicError e.
Proof.
  unfold applyCounter.
  destruct (counterVecs (heap ls) !! p) as [v|]; [|intros [= <- _]; eauto].
  destruct (GetMetricWith v labels) as [err|[key v']]; [intros [= <- _]; eauto|].
  destruct (Add v' key x); [intros [= <- _]; eauto|done].
Qed.

End RegistryBranches.

(** X12: The iteration on a counter-kind metric never panics: whatever the
    metrics library raises while the value is applied is returned as an
    error. *)
Theorem registerMetric_counter_never_panics {R} (reg : Registerer R)
    (moduleName : string) (m : metric.t) (ls : LoopState)
    (old : gmap string string) :
  metric.MetricType m = MetricTypeCounter →
  labelsOf (metric.Labels m) (heap ls) = Some old →
  ∃ err, (registerMetric reg moduleName m ls).1 = Done err.
Proof.
  intros Hkind Hold. unfold registerMetric.
  destruct (ensureLabels_spec m ls old Hold) as (l & ls0 & -> & -> & _).
  rewrite Hkind. loop_state_norm.
  assert (∀ (out : exec unit * @LoopState R) labels,
            (∀ q ls1, out = (Panicked q, ls1) → ∃ e, q = PanicError e) →
            ∃ err,
              (let '(r, ls) := out in
               match recoverError r with
               | Panicked p => (Panicked p, ls)
               | Done None => (Done None, ls)
               | Done (Some err) =>
                   (Done (Some (ErrApply (metric.Name m) MetricTypeCounter
                                         (metric.Value m) labels err)), ls)
               end).1 = Done err) as Hfinish.
  { intros [[[]|q] ls1] labels Hq; cbn [recoverError fst]; [eauto|].
    destruct (Hq q ls1 eq_refl) as [e ->]. cbn [recoverError fst]. eauto. }
  destruct (registeredCounters ls0 !! metric.Name m) as [p|].
  - apply Hfinish. intros q ls1. apply applyCounter_panic_error.
  - destruct (Register reg _ _ _) as [[err|] r']; [cbn [fst]; eauto|].
    apply Hfinish. intros q ls1. apply applyCounter_panic_error.
Qed.

Lemma registerMetric_counter_never_panics_witness :
  ∃ err,
    (registerMetric fake.registry "plant" (exampleCounter (-1))
       (registerMetrics_init [] fake.emptyHeap)).1 = Done err.
Proof.
  apply (registerMetric_counter_never_panics fake.registry "plant"
           (exampleCounter (-1)) (registerMetrics_init [] fake.emptyHeap) ∅);
    reflexivity.
Defined.

(** X13: When the vector already in the table for a metric's name was made for
    another number of labels than the metric has, module label included,
    a gauge makes the iteration panic, as nothing recovers the panic of the
    metrics library there, and a counter makes it return an error naming
    the metric. *)
Theorem registerMetric_label_count_mismatch {R} (reg : Registerer R)
    (moduleName : string) (m : metric.t) (ls : LoopState)
    (old : gmap string string) (k : MetricType) (p : nat) (v : Vec) :
  labelsOf (metric.Labels m) (heap ls) = Some old →
  metric.MetricType m = k →
  kindTable k ls !! metric.Name m = Some p →
  kindVecs k (heap ls) !! p = Some v →
  let labels := <["module" := moduleName]> old in
  size labels ≠ length (variableLabels v) →
  (registerMetric reg moduleName m ls).1
  = match k with
    | MetricTypeGauge => Panicked (PanicError errInconsistentCardinality)
    | _ => Done (Some (ErrApply (metric.Name m) k (metric.Value m) labels
                                errInconsistentCardinality))
    end.
Proof.
  intros Hold Hkind Htab Hvec labels Hsize. unfold registerMetric.
  destruct (ensureLabels_spec m ls old Hold) as (l & ls0 & -> & -> & Hcol).
  unfold collectors in Hcol. injection Hcol as Hreg Hg Hc Hgv Hcv.
  fold labels. rewrite Hkind.
  assert (GetMetricWith v labels = inl errInconsistentCardinality) as Hwith.
  { unfold GetMetricWith, validateValuesInLabels.
    by rewrite bool_decide_eq_false_2. }
  destruct k as [| |s]; cbn [kindTable kindVecs] in Htab, Hvec; [| |done].
  - loop_state_norm. rewrite Hg, Htab. unfold applyGauge. loop_state_norm.
    by rewrite Hgv, Hvec, Hwith.
  - loop_state_norm. rewrite Hc, Htab. unfold applyCounter. loop_state_norm.
    by rewrite Hcv, Hvec, Hwith.
Qed.

Lemma registerMetric_label_count_mismatch_witness :
  let ls :=
    (registerMetrics_loop fake.registry "plant" [exampleGauge]
       (registerMetrics_init [] exampleHeap)).2 in
  (registerMetric fake.registry "plant"
     (metric.mk "voltage" "line voltage" (Some 0%nat) (float64_of_Z 231)
                MetricTypeGauge) ls).1
  = Panicked (PanicError errInconsistentCardinality).
Proof.
  apply (registerMetric_label_count_mismatch fake.registry "plant"
           (metric.mk "voltage" "line voltage" (Some 0%nat) (float64_of_Z 231)
                      MetricTypeGauge)
           _ {["unit" := "V"]} MetricTypeGauge 0%nat
           (mkVec "voltage" "line voltage" ["module"]
                  {[ ["plant"] := mkMetric (float64_of_Z 230) 0 ]})).
  - reflexivity.
  - reflexivity.
  - vm_compute. reflexivity.
  - vm_compute. reflexivity.
  - vm_compute. discriminate.
Defined.

(** X14: The first metric of a name and kind is taken by the vector made for
    it: when the registry accepts the vector and the label values are valid
    UTF-8, a gauge iteration succeeds, and so does a counter iteration
    whose value is not negative; the label schema of the vector is the key
    set of the metric's labels, module label included. *)
Theorem registerMetric_first_of_name_succeeds {R} (reg : Registerer R)
    (moduleName : string) (m : metric.t) (ls : LoopState)
    (old : gmap string string) (k : MetricType) :
  labelsOf (metric.Labels m) (heap ls) = Some old →
  collectorKind k → metric.MetricType m = k →
  kindTable k ls !! metric.Name m = None →
  let labels := <["module" := moduleName]> old in
  let p := length (kindVecs k (heap ls)) in
  (Register reg p (collectorOf k (NewVec (metric.Name m) (metric.Help m)
                                         (keys labels))) (registry ls)).1
  = None →
  (∀ key val, labels !! key = Some val → ValidString val = true) →
  (k = MetricTypeCounter →
   float64_ltb (metric.Value m) (float64_of_Z 0) = false) →
  (registerMetric reg moduleName m ls).1 = Done None
  ∧ ∃ v1, kindVecs k (heap (registerMetric reg moduleName m ls).2) !! p = Some v1
          ∧ variableLabels v1 = keys labels.
Proof.
  intros Hold Hk Hkind Htab labels p Hreg Hvalid Hpos. unfold registerMetric.
  destruct (ensureLabels_spec m ls old Hold) as (l & ls0 & -> & -> & Hcol).
  unfold collectors in Hcol. injection Hcol as Hr Hg Hc Hgv Hcv.
  fold labels. rewrite Hkind.
  destruct (GetMetricWith_NewVec (metric.Name m) (metric.Help m) labels Hvalid)
    as [key Hwith].
  destruct Hk as [->| ->]; cbn [kindTable kindVecs collectorOf] in *;
    loop_state_norm.
  - rewrite Hg, Htab, Hgv, Hr. subst p.
    destruct (Register reg _ _ (registry ls)) as [[err|] r']; [done|].
    unfold applyGauge. loop_state_norm.
    rewrite Hgv, lookup_app_r, Nat.sub_diag by done.
    change ([?x] !! 0%nat) with (Some x). cbv iota. rewrite Hwith.
    loop_state_norm. split; [done|].
    eexists. split.
    + loop_state_norm. rewrite ?Hgv. apply list_lookup_insert_eq.
      rewrite length_app. cbn [length]. lia.
    + reflexivity.
  - rewrite Hc, Htab, Hcv, Hr. subst p.
    destruct (Register reg _ _ (registry ls)) as [[err|] r']; [done|].
    unfold applyCounter. loop_state_norm.
    rewrite Hcv, lookup_app_r, Nat.sub_diag by done.
    change ([?x] !! 0%nat) with (Some x). cbv iota. rewrite Hwith.
    assert (float64_ltb (metric.Value m) (S754_zero false) = false) as Hnn
      by exact (Hpos eq_refl).
    unfold Add. rewrite Hnn. loop_state_norm. cbn [recoverError].
    split; [done|]. eexists. split.
    + loop_state_norm. rewrite ?Hcv. apply list_lookup_insert_eq.
      rewrite length_insert, length_app. cbn [length]. lia.
    + reflexivity.
Qed.

Lemma registerMetric_first_of_name_succeeds_witness :
  (registerMetric fake.registry "plant" (exampleCounter 5)
     (registerMetrics_init [] fake.emptyHeap)).1 = Done None.
Proof.
  apply (proj1 (registerMetric_first_of_name_succeeds fake.registry "plant"
                  (exampleCounter 5) (registerMetrics_init [] fake.emptyHeap)
                  ∅ MetricTypeCounter eq_refl (or_intror eq_refl) eq_refl
                  eq_refl eq_refl
                  ltac:(intros key val Hkv;
                        destruct (decide (key = "module")) as [->|Hne];
                        [rewrite lookup_insert_eq in Hkv;
                         injection Hkv as <-; reflexivity
                        |rewrite lookup_insert_ne in Hkv by done;
                         rewrite lookup_empty in Hkv; discriminate])
                  ltac:(intros _; vm_compute; reflexivity))).
Defined.

Section RegistryOtherKinds.
Context {R : Type} (reg : Registerer R).
Implicit Types (ls : @LoopState R) (m : metric.t).

Lemma registerMetric_labelMaps_length moduleName m ls :
  (length (labelMaps (heap ls))
   ≤ length (labelMaps (heap (registerMetric reg moduleName m ls).2)))%nat.
Proof.
  rewrite registerMetric_labelMaps. destruct (metric.Labels m) as [l|].
  - destruct (labelMaps (heap ls) !! l); [by rewrite length_insert|done].
  - rewrite length_app. lia.
Qed.

Lemma registerMetrics_loop_other_kinds moduleName metrics ls :
  (∀ m, m ∈ metrics → ∃ s, metric.MetricType m = MetricTypeOther s) →
  (∀ m l, m ∈ metrics → metric.Labels m = Some l →
          (l < length (labelMaps (heap ls)))%nat) →
  (registerMetrics_loop reg moduleName metrics ls).1 = Done None
  ∧ collectors (registerMetrics_loop reg moduleName metrics ls).2
    = collectors ls.
Proof.
  revert ls. induction metrics as [|m metrics IH]; intros ls Hkinds Hrefs;
    [done|].
  cbn [registerMetrics_loop].
  pose proof (registerMetric_iteration reg moduleName m ls) as Hiter.
  pose proof (registerMetric_labelMaps_length moduleName m ls) as Hlen.
  destruct (Hkinds m (list_elem_of_here _ _)) as [s Hkind].
  destruct (registerMetric reg moduleName m ls) as [res ls1].
  cbn [fst snd] in *.
  destruct Hiter as
    [p Hold
    |old s' ls1 Hold Hkind' Hcol
    |old k0 p ls0 r res ls1 Hold Hk0 Hkind' Htab Hcol Heff Hres
    |old k0 err r' ls1 Hold Hk0 Hkind' Htab vec Hregister Hreg Hvecs Hothers Htabs
    |old k0 r' ls0 r res ls1 Hold Hk0 Hkind' Htab vec Hregister Hreg Hvecs
       Hothers Htab0 Htabs Heff Hres];
    try (rewrite Hkind in Hkind'; subst k0; by destruct Hk0).
  - exfalso. unfold labelsOf in Hold.
    destruct (metric.Labels m) as [l|] eqn:Hl; [|done].
    apply lookup_ge_None in Hold.
    pose proof (Hrefs m l (list_elem_of_here _ _) Hl). lia.
  - destruct (IH ls1) as [Hres Hcols].
    + intros m' Hm'. apply Hkinds. by apply list_elem_of_further.
    + intros m' l Hm' Hl.
      pose proof (Hrefs m' l (list_elem_of_further _ _ _ Hm') Hl). lia.
    + split; [done|]. by rewrite Hcols.
Qed.

End RegistryOtherKinds.

(** X15: Metrics whose kind is neither gauge nor counter are passed over:
    registering a list of such metrics succeeds, offers nothing to the
    registry and creates no vector. *)
Theorem registerMetrics_ignores_other_kinds {R} (reg : Registerer R)
    (moduleName : string) (metrics : list metric.t) (r : R) (h : Heap) :
  (∀ m, m ∈ metrics → ∃ s, metric.MetricType m = MetricTypeOther s) →
  (∀ m l, m ∈ metrics → metric.Labels m = Some l →
          (l < length (labelMaps h))%nat) →
  let run := registerMetrics reg moduleName metrics r h in
  run.1 = Done None
  ∧ run.2.1 = r
  ∧ gaugeVecs run.2.2 = gaugeVecs h
  ∧ counterVecs run.2.2 = counterVecs h.
Proof.
  intros Hkinds Hrefs. cbv zeta. unfold registerMetrics.
  destruct (registerMetrics_loop_other_kinds reg moduleName metrics
              (registerMetrics_init r h) Hkinds Hrefs) as [Hres Hcol].
  destruct (registerMetrics_loop reg moduleName metrics
              (registerMetrics_init r h)) as [res ls'].
  cbn [fst snd] in *. unfold collectors in Hcol.
  injection Hcol as Hr _ _ Hg Hc. done.
Qed.

Lemma registerMetrics_ignores_other_kinds_witness :
  (registerMetrics fake.registry "plant"
     [metric.mk "level" "tank level" None (float64_of_Z 3)
                (MetricTypeOther "histogram")] [] fake.emptyHeap).1
  = Done None.
Proof.
  apply (registerMetrics_ignores_other_kinds fake.registry "plant"
           [metric.mk "level" "tank level" None (float64_of_Z 3)
                      (MetricTypeOther "histogram")] [] fake.emptyHeap).
  - intros m Hm. apply list_elem_of_singleton in Hm as ->. by eexists.
  - intros m l Hm Hl. apply list_elem_of_singleton in Hm as ->. discriminate.
Defined.

(** * Properties of the orchestrator *)

(** X16: A scrape returns a registry or an error, never both and never neither,
    unless it panics. The error names what failed: the module that is not
    configured, the connection, the scraping or the registering; in the
    first three cases the heap is as it was. *)
Theorem Scrape_result {S R} (reg : Registerer R) (NewRegistry : R)
    (Connect : TCPClientHandler → error + S) (NewClient : Client S)
    (e : Exporter) (targetAddress : string) (subTarget : byte)
    (moduleName : string) (h : Heap) :
  let run := Scrape reg NewRegistry Connect NewClient e targetAddress
                    subTarget moduleName h in
  (∃ r, run.1 = Done (Some r, None))
  ∨ (run = (Done (None, Some (ErrModuleNotFound moduleName)), h)
     ∧ GetModule (GetConfig e) moduleName = None)
  ∨ (∃ module, GetModule (GetConfig e) moduleName = Some module
               ∧ run = (Done (None, Some (ErrConnect targetAddress
                                            (Module_.Name module))), h))
  ∨ (∃ inner, run = (Done (None, Some (ErrScrape moduleName inner)), h))
  ∨ (∃ inner, run.1 = Done (None, Some (ErrRegisterModule moduleName inner)))
  ∨ (∃ p, run.1 = Panicked p).
Proof.
  cbv zeta. unfold Scrape, GetConfig.
  destruct (GetModule (exporter_config e) moduleName) as [module|];
    [|right; left; done].
  destruct (Connect _) as [err|s]; [right; right; left; eauto|].
  destruct (scrapeMetrics _ _ _) as [[[ms [err|]]|p] s'];
    [right; right; right; left; eauto| |do 5 right; eauto].
  destruct (registerMetrics _ _ _ _ _) as [[[err|]|p] [r' h']]; cbn [fst].
  - do 4 right. left. eauto.
  - left. eauto.
  - do 5 right. eauto.
Qed.
